(** * Join-request lifecycle of the reading-group application

    Shallow embedding of
    - the route handler [POST] of [/api/groups/{groupId}/join-requests]
      (creation of a join request and notification of the group admins),
    - the client callback [handleRequestAction] of the component
      [JoinRequestsManager], with its loading of the list and its view,
    - the handlers of the library page ([fetchBooks], the two dialogs,
      deletion, archiving and change of status of a book),
    and of the resolution step of the lifecycle, whose handler is not part
    of the sources at hand and is modelled from the specification. *)

From Stdlib Require Import String List Bool Arith ZArith Lia DecimalString.
Import ListNotations.
Local Open Scope list_scope.
Local Open Scope string_scope.

(** ** JavaScript values used by the handlers *)

Module Js.

(** [!!s] for a string: only the empty string is falsy. *)
Definition truthy (s : string) : bool := negb (s =? "").

(** [!!v] for a value of type [string | null]. *)
Definition truthy_opt (v : option string) : bool :=
  match v with
  | Some s => truthy s
  | None => false
  end.

(** [v || d] for [v : string | null] and a string [d]. *)
Definition or_else (v : option string) (d : string) : string :=
  match v with
  | Some s => if truthy s then s else d
  | None => d
  end.

(** The string a [string | null] interpolates to in a template literal. *)
Definition interpolate (v : option string) : string :=
  match v with
  | Some s => s
  | None => "null"
  end.

End Js.

(** ** Persistent data (the tables reached through the ORM) *)

Inductive RoleInGroup : Set := ADMIN | MEMBER.

Inductive RequestStatus : Set := PENDING | ACCEPTED | DECLINED.

Definition RoleInGroup_eqb (a b : RoleInGroup) : bool :=
  match a, b with
  | ADMIN, ADMIN | MEMBER, MEMBER => true
  | _, _ => false
  end.

Definition RequestStatus_eqb (a b : RequestStatus) : bool :=
  match a, b with
  | PENDING, PENDING | ACCEPTED, ACCEPTED | DECLINED, DECLINED => true
  | _, _ => false
  end.

Record User : Set := mkUser {
  user_ident : string;
  user_name : option string;
  user_image : option string;
  user_email : option string
}.

Record Group : Set := mkGroup {
  group_ident : string;
  group_name : string
}.

(** A row of [groupMember]; its unique key is [group_id_user_id]. *)
Record GroupMember : Set := mkGroupMember {
  group_id : string;
  user_id : string;
  role : RoleInGroup
}.

(** A row of [groupJoinRequest]; its unique key is [groupId_userId]. *)
Record GroupJoinRequest : Set := mkGroupJoinRequest {
  request_id : string;
  groupId : string;
  userId : string;
  status : RequestStatus
}.

Record Db : Set := mkDb {
  users : list User;
  groups : list Group;
  groupMembers : list GroupMember;
  groupJoinRequests : list GroupJoinRequest
}.

(** A member row together with the user row it refers to, as loaded by
    [include: { user: true }]. *)
Record MemberWithUser : Set := mkMemberWithUser {
  member_row : GroupMember;
  user : User
}.

(** A group together with the relation [members] the query asked for. *)
Record GroupWithMembers : Set := mkGroupWithMembers {
  group_row : Group;
  members : list MemberWithUser
}.

(** ** Requests, responses and the environment of a call *)

Record SessionUser : Set := mkSessionUser {
  session_user_id : string;
  session_user_name : option string
}.

Record Session : Set := mkSession {
  session_user : option SessionUser
}.

(** [NextResponse.json({ message }, { status })]. *)
Record Response : Set := mkResponse {
  message : string;
  http_status : nat
}.

(** What the handler does to the outside world besides the database. *)
Inductive Event : Set :=
| Render (adminName requesterName groupName managementUrl : string)
| EmailSend (from to subject : string)
| ConsoleError (text : string).

(** The calls made on the ORM client by [POST]. *)
Inductive PrismaCall : Set :=
| GroupFindUnique
| GroupMemberFindUnique
| GroupJoinRequestFindUnique
| GroupJoinRequestUpsert.

(** Everything a run of the handler depends on and does not control: the
    session, the process environment, the e-mail template, which ORM call
    rejects, for which admin the rendering or the sending of the e-mail
    rejects, and the identifier the database gives to a row it inserts. *)
Record Env : Type := mkEnv {
  getSession : option Session;
  NEXTAUTH_URL : string;
  RESEND_FROM_EMAIL : string;
  GroupJoinRequestEmail : string -> string -> string -> string -> string;
  prisma_rejects : PrismaCall -> bool;
  render_rejects : User -> bool;
  send_rejects : User -> bool;
  generated_id : string
}.

Record World : Set := mkWorld {
  db : Db;
  trace : list Event
}.

(** ** A monad for handlers: state, early [return] and exceptions *)

Inductive Outcome (A : Type) : Type :=
| Val (a : A)
| Return (r : Response)
| Throw (error : string).

Arguments Val {A} a.
Arguments Return {A} r.
Arguments Throw {A} error.

Definition M (A : Type) : Type := World -> Outcome A * World.

Definition ret {A} (a : A) : M A := fun w => (Val a, w).

Definition bind {A B} (m : M A) (k : A -> M B) : M B :=
  fun w =>
    match m w with
    | (Val a, w') => k a w'
    | (Return r, w') => (Return r, w')
    | (Throw e, w') => (Throw e, w')
    end.

Definition return_ {A} (r : Response) : M A := fun w => (Return r, w).

Definition throw {A} (e : string) : M A := fun w => (Throw e, w).

(** [try { body } catch (e) { handler e }]: a [return] inside [body] leaves
    the function, only an exception reaches the handler. *)
Definition try_catch {A} (body : M A) (handler : string -> M A) : M A :=
  fun w =>
    match body w with
    | (Throw e, w') => handler e w'
    | other => other
    end.

Definition emit (e : Event) : M unit :=
  fun w => (Val tt, mkWorld (db w) (trace w ++ [e])%list).

Definition read_db : M Db := fun w => (Val (db w), w).

Definition write_db (d : Db) : M unit :=
  fun w => (Val tt, mkWorld d (trace w)).

Declare Scope handler_scope.
Delimit Scope handler_scope with handler.
Notation "x <- m ;; k" := (bind m (fun x => k))
  (at level 61, m at next level, right associativity) : handler_scope.
Notation "m ;;; k" := (bind m (fun _ => k))
  (at level 61, right associativity) : handler_scope.
Local Open Scope handler_scope.

(** [for (const x of xs) { body x }]. *)
Fixpoint for_of {X} (xs : list X) (body : X -> M unit) : M unit :=
  match xs with
  | [] => ret tt
  | x :: rest => body x ;;; for_of rest body
  end.

(** ** The ORM calls *)

Definition same_member_key (g u : string) (m : GroupMember) : bool :=
  (group_id m =? g) && (user_id m =? u).

Definition same_request_key (g u : string) (r : GroupJoinRequest) : bool :=
  (groupId r =? g) && (userId r =? u).

Definition with_status (s : RequestStatus) (r : GroupJoinRequest)
  : GroupJoinRequest :=
  mkGroupJoinRequest (request_id r) (groupId r) (userId r) s.

(** The user row a member row refers to; the foreign key makes it exist,
    and a member row without one yields no joined row. *)
Definition include_user (d : Db) (m : GroupMember) : list MemberWithUser :=
  match find (fun u => user_ident u =? user_id m) (users d) with
  | Some u => [mkMemberWithUser m u]
  | None => []
  end.

(** The relation [members] of group [g] restricted by
    [where: { role: RoleInGroup.ADMIN }], each with its user. *)
Definition admin_members (d : Db) (g : string) : list MemberWithUser :=
  flat_map (include_user d)
    (filter (fun m => (group_id m =? g) && RoleInGroup_eqb (role m) ADMIN)
       (groupMembers d)).

Definition find_group (d : Db) (g : string) : option GroupWithMembers :=
  match find (fun x => group_ident x =? g) (groups d) with
  | Some x => Some (mkGroupWithMembers x (admin_members d g))
  | None => None
  end.

Definition find_member (d : Db) (g u : string) : option GroupMember :=
  find (same_member_key g u) (groupMembers d).

Definition find_request (d : Db) (g u : string) : option GroupJoinRequest :=
  find (same_request_key g u) (groupJoinRequests d).

(** [upsert]: the rows the [where] selects get [update]; when it selects
    none, the row of [create] is inserted. *)
Definition upsert_request (g u newid : string)
    (rows : list GroupJoinRequest) : list GroupJoinRequest :=
  if existsb (same_request_key g u) rows
  then map (fun r => if same_request_key g u r then with_status PENDING r
                     else r) rows
  else (rows ++ [mkGroupJoinRequest newid g u PENDING])%list.

Definition set_requests (d : Db) (rows : list GroupJoinRequest) : Db :=
  mkDb (users d) (groups d) (groupMembers d) rows.

Definition prisma_call {A} (env : Env) (c : PrismaCall) (query : M A) : M A :=
  if prisma_rejects env c then throw "PrismaClientError" else query.

Definition prisma_group_findUnique (env : Env) (g : string)
  : M (option GroupWithMembers) :=
  prisma_call env GroupFindUnique (d <- read_db ;; ret (find_group d g)).

Definition prisma_groupMember_findUnique (env : Env) (g u : string)
  : M (option GroupMember) :=
  prisma_call env GroupMemberFindUnique
    (d <- read_db ;; ret (find_member d g u)).

Definition prisma_groupJoinRequest_findUnique (env : Env) (g u : string)
  : M (option GroupJoinRequest) :=
  prisma_call env GroupJoinRequestFindUnique
    (d <- read_db ;; ret (find_request d g u)).

Definition prisma_groupJoinRequest_upsert (env : Env) (g u : string)
  : M unit :=
  prisma_call env GroupJoinRequestUpsert
    (d <- read_db ;;
     write_db (set_requests d
                 (upsert_request g u (generated_id env) (groupJoinRequests d)))).

(** ** The e-mail calls *)

Definition render (env : Env) (admin : MemberWithUser)
    (adminName requesterName groupName managementUrl : string) : M string :=
  emit (Render adminName requesterName groupName managementUrl) ;;;
  if render_rejects env (user admin) then throw "RenderError"
  else ret (GroupJoinRequestEmail env adminName requesterName groupName
              managementUrl).

Definition resend_emails_send (env : Env) (admin : MemberWithUser)
    (from to subject html : string) : M unit :=
  emit (EmailSend from to subject) ;;;
  if send_rejects env (user admin) then throw "ResendError" else ret tt.

Definition console_error (text : string) : M unit := emit (ConsoleError text).

(** ** The route handler *)

Definition notify_admin (env : Env) (requester : SessionUser)
    (group : GroupWithMembers) (g : string) (admin : MemberWithUser)
  : M unit :=
  if Js.truthy_opt (user_email (user admin)) then
    try_catch
      (emailHtml <- render env admin
                      (Js.or_else (user_name (user admin)) "Admin")
                      (Js.or_else (session_user_name requester)
                         "Un utilisateur")
                      (group_name (group_row group))
                      (NEXTAUTH_URL env ++ "/groups/" ++ g ++ "/edit") ;;
       resend_emails_send env admin
         ("Shelfy <" ++ RESEND_FROM_EMAIL env ++ ">")
         (Js.interpolate (user_email (user admin)))
         ("Nouvelle demande pour rejoindre " ++ group_name (group_row group))
         emailHtml)
      (fun emailError =>
         console_error ("Failed to send email to "
                        ++ Js.interpolate (user_email (user admin)) ++ ":"))
  else ret tt.

Definition POST_body (env : Env) (requester : SessionUser) (g : string)
  : M Response :=
  let u := session_user_id requester in
  try_catch
    ((* 1. Check if the group exists *)
     group <- prisma_group_findUnique env g ;;
     match group with
     | None => return_ (mkResponse "Group not found." 404)
     | Some group =>
       (* 2. Check if user is already a member *)
       existingMembership <- prisma_groupMember_findUnique env g u ;;
       match existingMembership with
       | Some _ =>
         return_ (mkResponse "You are already a member of this group." 400)
       | None =>
         (* 3. Check if user has already a pending request *)
         existingRequest <- prisma_groupJoinRequest_findUnique env g u ;;
         if match existingRequest with
            | Some r => RequestStatus_eqb (status r) PENDING
            | None => false
            end
         then return_ (mkResponse
                         "You have already requested to join this group." 400)
         else
           (* 4. Create the join request (or update if it was declined) *)
           prisma_groupJoinRequest_upsert env g u ;;;
           (* 5. Send email notification to admins *)
           for_of (members group) (notify_admin env requester group g) ;;;
           return_ (mkResponse "Join request sent successfully." 201)
       end
     end)
    (fun error =>
       console_error "Error processing join request:" ;;;
       return_ (mkResponse "An internal error occurred." 500)).

Definition POST (env : Env) (g : string) : M Response :=
  match getSession env with
  | Some (mkSession (Some requester)) =>
    if Js.truthy (session_user_id requester) then
      if negb (Js.truthy g)
      then return_ (mkResponse "Group ID is required." 400)
      else POST_body env requester g
    else return_ (mkResponse "Unauthorized" 401)
  | _ => return_ (mkResponse "Unauthorized" 401)
  end.

(** The response the framework sends for a run of a handler: the returned
    one, and a bare 500 for an exception that escapes the handler. *)
Definition respond (m : M Response) (w : World) : Response * World :=
  match m w with
  | (Val r, w') => (r, w')
  | (Return r, w') => (r, w')
  | (Throw e, w') => (mkResponse e 500, w')
  end.

(** [create] of the lifecycle is the route handler run to its response. *)
Definition create (env : Env) (g : string) (w : World) : Response * World :=
  respond (POST env g) w.

(** ** What a run of the handler leaves in the trace *)

Definition is_render (e : Event) : bool :=
  match e with Render _ _ _ _ => true | _ => false end.

Definition is_send (e : Event) : bool :=
  match e with EmailSend _ _ _ => true | _ => false end.

Definition is_console_error (e : Event) : bool :=
  match e with ConsoleError _ => true | _ => false end.

(** The notification attempts: the calls of [render], one per entered
    [try] block of the loop. *)
Definition attempts (t : list Event) : list Event := filter is_render t.

Definition sends (t : list Event) : list Event := filter is_send t.

Definition logged (t : list Event) : list Event := filter is_console_error t.

Definition has_email (admin : MemberWithUser) : bool :=
  Js.truthy_opt (user_email (user admin)).

Definition notification_failed (env : Env) (admin : MemberWithUser) : bool :=
  render_rejects env (user admin) || send_rejects env (user admin).

Definition render_call (env : Env) (requester : SessionUser)
    (group : GroupWithMembers) (g : string) (admin : MemberWithUser) : Event :=
  Render (Js.or_else (user_name (user admin)) "Admin")
         (Js.or_else (session_user_name requester) "Un utilisateur")
         (group_name (group_row group))
         (NEXTAUTH_URL env ++ "/groups/" ++ g ++ "/edit").

Definition failure_log (admin : MemberWithUser) : Event :=
  ConsoleError ("Failed to send email to "
                ++ Js.interpolate (user_email (user admin)) ++ ":").

Definition send_call (env : Env) (group : GroupWithMembers)
    (admin : MemberWithUser) : Event :=
  EmailSend ("Shelfy <" ++ RESEND_FROM_EMAIL env ++ ">")
            (Js.interpolate (user_email (user admin)))
            ("Nouvelle demande pour rejoindre " ++ group_name (group_row group)).

(** The events one turn of the loop adds, read off the outcomes of the two
    calls. *)
Definition notification_events (env : Env) (requester : SessionUser)
    (group : GroupWithMembers) (g : string) (admin : MemberWithUser)
  : list Event :=
  if has_email admin then
    render_call env requester group g admin ::
    (if render_rejects env (user admin) then [failure_log admin]
     else send_call env group admin ::
          (if send_rejects env (user admin) then [failure_log admin] else []))
  else [].

(** The world after the outer [catch]: the error is logged, the store is
    as the failed call left it. *)
Definition after_internal_error (w : World) : World :=
  mkWorld (db w) (trace w ++ [ConsoleError "Error processing join request:"])%list.

(** The world after a run that reaches the final [return]. *)
Definition after_success (env : Env) (requester : SessionUser)
    (group : GroupWithMembers) (g : string) (w : World) : World :=
  mkWorld
    (set_requests (db w)
       (upsert_request g (session_user_id requester) (generated_id env)
          (groupJoinRequests (db w))))
    (trace w ++ flat_map (notification_events env requester group g)
                  (members group))%list.

Definition is_pending (r : option GroupJoinRequest) : bool :=
  match r with
  | Some r => RequestStatus_eqb (status r) PENDING
  | None => false
  end.

(** The five refusals of [create] that precede the upsert. *)
Definition refusals : list Response :=
  [mkResponse "Unauthorized" 401;
   mkResponse "Group ID is required." 400;
   mkResponse "Group not found." 404;
   mkResponse "You are already a member of this group." 400;
   mkResponse "You have already requested to join this group." 400].

(** ** Stores and the rows of a pair *)

Definition requests_of (g u : string) (d : Db) : list GroupJoinRequest :=
  filter (same_request_key g u) (groupJoinRequests d).

Definition pending_of (g u : string) (d : Db) : list GroupJoinRequest :=
  filter (fun r => RequestStatus_eqb (status r) PENDING) (requests_of g u d).

Definition is_member (g u : string) (d : Db) : bool :=
  existsb (same_member_key g u) (groupMembers d).

Definition group_exists (g : string) (d : Db) : bool :=
  existsb (fun x => group_ident x =? g) (groups d).

(** The unique constraint [groupId_userId] of the table of requests. *)
Definition unique_requests (d : Db) : Prop :=
  forall g u, length (requests_of g u d) <= 1.

(** A call by the signed-in user [u] during which no ORM call rejects. *)
Definition signed_in (env : Env) (requester : SessionUser) : Prop :=
  getSession env = Some (mkSession (Some requester)) /\
  Js.truthy (session_user_id requester) = true.

Definition prisma_available (env : Env) : Prop :=
  forall c, prisma_rejects env c = false.

(** ** Resolution of a request *)

Inductive ResolveAction : Set := accept | decline.

Inductive ResolveResult : Set :=
| Resolved (s : RequestStatus)
| NotFound
| InternalError.

Definition resolve_http_status (r : ResolveResult) : nat :=
  match r with
  | Resolved _ => 200
  | NotFound => 404
  | InternalError => 500
  end.

Definition request_in_group (g rid : string) (r : GroupJoinRequest) : bool :=
  (request_id r =? rid) && (groupId r =? g).

Definition find_request_by_id (d : Db) (g rid : string)
  : option GroupJoinRequest :=
  find (request_in_group g rid) (groupJoinRequests d).

(** Rewrites the first row the predicate selects. *)
Fixpoint update_first {X} (p : X -> bool) (f : X -> X) (rows : list X)
  : list X :=
  match rows with
  | [] => []
  | x :: rest => if p x then f x :: rest else x :: update_first p f rest
  end.

(** Modelled from the spec: the handler of
    [PUT /groups/{groupId}/join-requests/{requestId}] is not among the
    sources; this is [resolve] of the lifecycle as the specification words
    it. It fails [NotFound] if no request with that id exists in that group
    or if its status is not [PENDING]; on [accept] it sets the status to
    [ACCEPTED] and creates a [Membership] row with role [MEMBER] in one
    transaction, both or neither; on [decline] it sets the status to
    [DECLINED]; it returns the updated status. A membership is unique per
    (group, user), so the transaction cannot commit when the pair already
    has one; [store_rejects] says that the store fails the transaction.
    The caller's authorization is enforced by a collaborator before the
    lifecycle is entered and is not part of this step. *)
Definition resolve (store_rejects : bool) (g rid : string)
    (a : ResolveAction) (d : Db) : ResolveResult * Db :=
  match find_request_by_id d g rid with
  | None => (NotFound, d)
  | Some r =>
    if negb (RequestStatus_eqb (status r) PENDING) then (NotFound, d)
    else
      match a with
      | accept =>
        if store_rejects || is_member g (userId r) d then (InternalError, d)
        else (Resolved ACCEPTED,
              mkDb (users d) (groups d)
                   (groupMembers d ++ [mkGroupMember g (userId r) MEMBER])%list
                   (update_first (request_in_group g rid)
                      (with_status ACCEPTED) (groupJoinRequests d)))
      | decline =>
        if store_rejects then (InternalError, d)
        else (Resolved DECLINED,
              set_requests d
                (update_first (request_in_group g rid)
                   (with_status DECLINED) (groupJoinRequests d)))
      end
  end.

(** ** Stores reachable by the lifecycle *)

Inductive step : Db -> Db -> Prop :=
| step_create (env : Env) (g : string) (w : World) :
    step (db w) (db (snd (create env g w)))
| step_resolve (store_rejects : bool) (g rid : string) (a : ResolveAction)
    (d : Db) :
    step d (snd (resolve store_rejects g rid a d)).

(** The lifecycle starts from a store that holds no request yet. *)
Inductive reachable : Db -> Prop :=
| reachable_start (d : Db) : groupJoinRequests d = [] -> reachable d
| reachable_step (d d' : Db) : reachable d -> step d d' -> reachable d'.

(** The stores the lifecycle keeps consistent: one request per pair, a
    membership behind every accepted request, none behind a pending one. *)
Record consistent (d : Db) : Prop := mkConsistent {
  consistent_unique : unique_requests d;
  consistent_accepted : forall r, In r (groupJoinRequests d) ->
    status r = ACCEPTED -> is_member (groupId r) (userId r) d = true;
  consistent_pending : forall r, In r (groupJoinRequests d) ->
    status r = PENDING -> is_member (groupId r) (userId r) d = false
}.

(** A row after a call of the handler for group [g], against the row it was
    before: the same request, with its status or set to PENDING. *)
Definition row_kept (g : string) (r r' : GroupJoinRequest) : Prop :=
  request_id r' = request_id r /\ groupId r' = groupId r /\
  userId r' = userId r /\
  (status r' = status r \/ (status r' = PENDING /\ groupId r = g)).

(** ** A small store to run the handlers on *)

Module Scenario.

Definition alice : User :=
  mkUser "alice" (Some "Alice") None (Some "alice@x.com").

Definition carol : User := mkUser "carol" (Some "Carol") None None.

Definition bob : User := mkUser "bob" (Some "Bob") None (Some "bob@x.com").

Definition bob_session : SessionUser := mkSessionUser "bob" (Some "Bob").

Definition store : Db :=
  mkDb [alice; carol; bob]
       [mkGroup "BookClub" "BookClub"]
       [mkGroupMember "BookClub" "alice" ADMIN;
        mkGroupMember "BookClub" "carol" ADMIN]
       [].

Definition env : Env :=
  mkEnv (Some (mkSession (Some bob_session)))
        "https://shelfy.fr" "noreply@shelfy.fr"
        (fun adminName requesterName groupName managementUrl =>
           adminName ++ requesterName ++ groupName ++ managementUrl)
        (fun _ => false) (fun _ => false) (fun _ => false) "request-1".

(** A later call: the store gives another identifier to a new row. *)
Definition env_later : Env :=
  mkEnv (getSession env) (NEXTAUTH_URL env) (RESEND_FROM_EMAIL env)
        (GroupJoinRequestEmail env) (prisma_rejects env)
        (render_rejects env) (send_rejects env) "request-2".

(** The same call while the e-mail service rejects every message. *)
Definition env_mail_down : Env :=
  mkEnv (getSession env) (NEXTAUTH_URL env) (RESEND_FROM_EMAIL env)
        (GroupJoinRequestEmail env) (prisma_rejects env)
        (fun _ => false) (fun _ => true) (generated_id env).

(** The same call while the store rejects the upsert. *)
Definition env_upsert_down : Env :=
  mkEnv (getSession env) (NEXTAUTH_URL env) (RESEND_FROM_EMAIL env)
        (GroupJoinRequestEmail env)
        (fun c => match c with GroupJoinRequestUpsert => true | _ => false end)
        (render_rejects env) (send_rejects env) (generated_id env).

Definition world : World := mkWorld store [].

Definition with_request (s : RequestStatus) : Db :=
  set_requests store [mkGroupJoinRequest "request-1" "BookClub" "bob" s].

Definition with_membership (s : RequestStatus) : Db :=
  mkDb (users store) (groups store)
       (groupMembers store ++ [mkGroupMember "BookClub" "bob" MEMBER])%list
       [mkGroupJoinRequest "request-1" "BookClub" "bob" s].

End Scenario.

(** ** The client component *)

Module Client.

Record RequestUser : Set := mkRequestUser {
  user_id : string;
  name : option string;
  image : option string;
  email : option string
}.

Record JoinRequest : Set := mkJoinRequest {
  id : string;
  user : RequestUser
}.

Inductive Action : Set := accept | decline.

Definition action_text (a : Action) : string :=
  match a with accept => "accept" | decline => "decline" end.

Record Toast : Set := mkToast {
  title : string;
  description : string;
  variant : option string
}.

(** The state of the component: [requests], [loading] and the toasts
    shown so far. *)
Record State : Set := mkState {
  requests : list JoinRequest;
  loading : bool;
  toasts : list Toast
}.

(** A thrown value: an [Error] with its message, or anything else. *)
Inductive Thrown : Set :=
| ErrorObject (message : string)
| OtherValue.

(** The body of a response: [json()] rejects, or yields an object whose
    field [message] may be missing. *)
Inductive Body : Set :=
| JsonRejects (t : Thrown)
| JsonObject (message : option string).

Record FetchResponse : Set := mkFetchResponse {
  ok : bool;
  json : Body
}.

(** What [await fetch(...)] gives. *)
Inductive FetchResult : Set :=
| FetchResolves (response : FetchResponse)
| FetchRejects (t : Thrown).

Definition toast (t : Toast) (s : State) : State :=
  mkState (requests s) (loading s) (toasts s ++ [t])%list.

(** [setRequests(prev => prev.filter(req => req.id !== requestId))]. *)
Definition setRequests_without (requestId : string) (s : State) : State :=
  mkState (filter (fun req => negb (id req =? requestId)) (requests s))
          (loading s) (toasts s).

(** The [try] block: the new state, or the value thrown. *)
Definition try_block (requestId : string) (action : Action)
    (fetched : FetchResult) (s : State) : State + Thrown :=
  match fetched with
  | FetchRejects t => inr t
  | FetchResolves response =>
    if negb (ok response) then
      match json response with
      | JsonRejects t => inr t
      | JsonObject errorData =>
        inr (ErrorObject
               (Js.or_else errorData
                  ("Failed to " ++ action_text action ++ " request.")))
      end
    else
      inl (setRequests_without requestId
             (toast (mkToast "Succès"
                       ("La demande a été "
                        ++ match action with
                           | accept => "accept&apos;ee"
                           | decline => "refus&apos;ee"
                           end ++ ".")
                       None) s))
  end.

Definition handleRequestAction (requestId : string) (action : Action)
    (fetched : FetchResult) (s : State) : State :=
  match try_block requestId action fetched s with
  | inl s' => s'
  | inr error =>
    let errorMessage :=
      match error with
      | ErrorObject m => m
      | OtherValue => "Une erreur inconnue est survenue."
      end in
    toast (mkToast "Erreur" errorMessage (Some "destructive")) s
  end.

(** *** Loading the list *)

(** The body of the response that lists the requests: [json()] rejects, or
    yields the array. *)
Inductive ListBody : Set :=
| ListJsonRejects (t : Thrown)
| ListJson (data : list JoinRequest).

Record ListResponse : Set := mkListResponse {
  list_ok : bool;
  list_json : ListBody
}.

Inductive ListFetchResult : Set :=
| ListFetchResolves (response : ListResponse)
| ListFetchRejects (t : Thrown).

Definition setLoading (b : bool) (s : State) : State :=
  mkState (requests s) b (toasts s).

Definition setRequests (data : list JoinRequest) (s : State) : State :=
  mkState data (loading s) (toasts s).

(** [error instanceof Error ? error.message : '...']. *)
Definition errorMessage (error : Thrown) : string :=
  match error with
  | ErrorObject m => m
  | OtherValue => "Une erreur inconnue est survenue."
  end.

Definition fetchRequests_try (fetched : ListFetchResult) (s : State)
  : State + Thrown :=
  match fetched with
  | ListFetchRejects t => inr t
  | ListFetchResolves response =>
    if negb (list_ok response)
    then inr (ErrorObject "Failed to fetch join requests.")
    else
      match list_json response with
      | ListJsonRejects t => inr t
      | ListJson data => inl (setRequests data s)
      end
  end.

(** [fetchRequests]: [try], [catch] and [finally] around the call. *)
Definition fetchRequests (fetched : ListFetchResult) (s : State) : State :=
  let s1 := setLoading true s in
  let s2 :=
    match fetchRequests_try fetched s1 with
    | inl s' => s'
    | inr error =>
      toast (mkToast "Erreur" (errorMessage error) (Some "destructive")) s1
    end in
  setLoading false s2.

(** *** What the component shows *)

(** One [<li>]: its key, the image, the two lines of text and the calls
    bound to the two buttons. *)
Record Item : Set := mkItem {
  key : string;
  image_src : string;
  image_alt : string;
  name_text : option string;
  email_text : option string;
  onDecline : string * Action;
  onAccept : string * Action
}.

Inductive View : Set :=
| Chargement
| AucuneDemande
| Demandes (items : list Item).

Definition render_item (request : JoinRequest) : Item :=
  mkItem (id request)
         (Js.or_else (image (user request)) "https://via.placeholder.com/40")
         (Js.or_else (name (user request)) "Avatar")
         (name (user request))
         (email (user request))
         (id request, decline)
         (id request, accept).

Definition render (s : State) : View :=
  if loading s then Chargement
  else
    match requests s with
    | [] => AucuneDemande
    | _ :: _ => Demandes (map render_item (requests s))
    end.


End Client.

(** ** The library page *)

Module Library.

(** The numbers of a book are carried as integers; the page computes with
    [status_id] only, which it compares with 1 and 2. *)
Record BookInfo : Set := mkBookInfo {
  info_id : string;
  title : string;
  author : option string;
  description : option string;
  cover_url : option string;
  page_count : option Z;
  genre : option string
}.

(** [is_archived?: boolean]: [None] when the field is missing. *)
Record Book : Set := mkBook {
  id : string;
  status_id : Z;
  rating : option Z;
  started_at : option string;
  finished_at : option string;
  current_page : option Z;
  is_archived : option bool;
  book : BookInfo
}.

Record ReadingStatus : Set := mkReadingStatus {
  name : string;
  label : string;
  bgColorClass : string
}.

Definition READING_STATUSES : list ReadingStatus :=
  [mkReadingStatus "all" "Tous les livres" "bg-gray-400";
   mkReadingStatus "to_read" "À lire" "bg-blue-500";
   mkReadingStatus "reading" "En cours" "bg-yellow-500";
   mkReadingStatus "finished" "Terminé" "bg-green-500"].

Record ArchiveStatus : Set := mkArchiveStatus {
  archive_name : string;
  archive_label : string;
  queryValue : option bool
}.

Definition ARCHIVE_STATUSES : list ArchiveStatus :=
  [mkArchiveStatus "all" "Tous les livres (Archive)" None;
   mkArchiveStatus "non_archived" "Non archivés" (Some false);
   mkArchiveStatus "archived" "Archivés" (Some true)].

(** [ARCHIVE_STATUSES.find(s => s.name === filterArchiveStatus)?.queryValue]. *)
Definition selectedArchiveStatus (filterArchiveStatus : string)
  : option bool :=
  match find (fun s => archive_name s =? filterArchiveStatus)
          ARCHIVE_STATUSES with
  | Some s => queryValue s
  | None => None
  end.

(** *** The status shown on a card *)

Definition status_name (status_id : Z) : string :=
  if Z.eqb status_id 1 then "to_read"
  else if Z.eqb status_id 2 then "reading" else "finished".

Definition shown_status (userBook : Book) : option ReadingStatus :=
  find (fun s => name s =? status_name (status_id userBook)) READING_STATUSES.

(** [READING_STATUSES.find(...)?.label || 'Inconnu']. *)
Definition status_label (userBook : Book) : string :=
  Js.or_else (option_map label (shown_status userBook)) "Inconnu".

(** [READING_STATUSES.find(...)?.bgColorClass || 'bg-gray-400']. *)
Definition status_color (userBook : Book) : string :=
  Js.or_else (option_map bgColorClass (shown_status userBook)) "bg-gray-400".

(** [userBook?.is_archived || false]. *)
Definition isCurrentlyArchived (userBook : Book) : bool :=
  match is_archived userBook with
  | Some b => b
  | None => false
  end.

(** *** The address of the list *)

(** [s.slice(0, -1)]: the string without its last character. *)
Fixpoint slice_0_minus_1 (s : string) : string :=
  match s with
  | EmptyString => EmptyString
  | String c EmptyString => EmptyString
  | String c rest => String c (slice_0_minus_1 rest)
  end.

Definition string_of_boolean (b : bool) : string :=
  if b then "true" else "false".

(** The address [fetchBooks] builds from its two filters. *)
Definition library_url (statusFilter : option string)
    (archivedFilter : option bool) : string :=
  let url := "/api/library?" in
  let url :=
    match statusFilter with
    | Some f =>
      if Js.truthy f && negb (f =? "all")
      then url ++ "status=" ++ f ++ "&" else url
    | None => url
    end in
  let url :=
    match archivedFilter with
    | Some b => url ++ "archived=" ++ string_of_boolean b ++ "&"
    | None => url
    end in
  slice_0_minus_1 url.

(** *** The two confirmation dialogs *)

Inductive ModalType : Set := delete | archive.

Record Modal : Set := mkModal {
  isOpen : bool;
  bookId : option string
}.

Record Modals : Set := mkModals {
  delete_modal : Modal;
  archive_modal : Modal
}.

Definition modal_of (type : ModalType) (m : Modals) : Modal :=
  match type with
  | delete => delete_modal m
  | archive => archive_modal m
  end.

(** [{ ...prev, [type]: v }]. *)
Definition set_modal (type : ModalType) (v : Modal) (prev : Modals)
  : Modals :=
  match type with
  | delete => mkModals v (archive_modal prev)
  | archive => mkModals (delete_modal prev) v
  end.

Definition closeModal (type : ModalType) (prev : Modals) : Modals :=
  set_modal type (mkModal false None) prev.

Definition openModal (type : ModalType) (id : string) (prev : Modals)
  : Modals :=
  set_modal type (mkModal true (Some id)) prev.

(** *** Calls on the server *)

Inductive Method : Set := GET | DELETE | PUT | PATCH.

(** The object given to [JSON.stringify] as the body of a call. *)
Inductive RequestBody : Set :=
| NoBody
| ArchiveBody (is_archived : bool)
| StatusBody (status : string).

Record Request : Set := mkRequest {
  method : Method;
  url : string;
  body : RequestBody
}.

Record Badge : Set := mkBadge {
  badge_name : string
}.

(** The parsed body of a response, through the fields the page reads. *)
Record Json : Set := mkJson {
  message : option string;
  data : list Book;
  awardedBadges : option (list Badge)
}.

Inductive Body : Set :=
| JsonRejects (t : Client.Thrown)
| JsonResolves (v : Json).

Record Response : Set := mkResponse {
  ok : bool;
  status : nat;
  json : Body
}.

Inductive FetchResult : Set :=
| FetchResolves (response : Response)
| FetchRejects (t : Client.Thrown).

(** What the server does with each call. *)
Definition Net : Type := Request -> FetchResult.

(** [description] is [undefined] when the value caught has no message. *)
Record Toast : Set := mkToast {
  toast_title : string;
  toast_description : option string;
  toast_variant : option string
}.

(** The state of the page, and with it the calls made so far. *)
Record State : Set := mkState {
  books : list Book;
  loading : bool;
  error : option string;
  filterStatus : string;
  filterArchiveStatus : string;
  modals : Modals;
  toasts : list Toast;
  calls : list Request
}.

Definition setBooks (v : list Book) (s : State) : State :=
  mkState v (loading s) (error s) (filterStatus s) (filterArchiveStatus s)
          (modals s) (toasts s) (calls s).

Definition setLoading (v : bool) (s : State) : State :=
  mkState (books s) v (error s) (filterStatus s) (filterArchiveStatus s)
          (modals s) (toasts s) (calls s).

Definition setError (v : option string) (s : State) : State :=
  mkState (books s) (loading s) v (filterStatus s) (filterArchiveStatus s)
          (modals s) (toasts s) (calls s).

Definition toast (t : Toast) (s : State) : State :=
  mkState (books s) (loading s) (error s) (filterStatus s)
          (filterArchiveStatus s) (modals s) (toasts s ++ [t])%list (calls s).

Definition called (r : Request) (s : State) : State :=
  mkState (books s) (loading s) (error s) (filterStatus s)
          (filterArchiveStatus s) (modals s) (toasts s) (calls s ++ [r])%list.

(** [e.message] of a caught value. *)
Definition message_of (e : Client.Thrown) : option string :=
  match e with
  | Client.ErrorObject m => Some m
  | Client.OtherValue => None
  end.

Definition http_error (response : Response) : string :=
  "HTTP error! status: " ++ NilEmpty.string_of_uint (Nat.to_uint (status response)).

(** The check every handler makes on the response of its call: the
    response when it is [ok], or the value thrown - by [fetch], by [json()]
    on the body of the error, or the error made of that body. *)
Definition checked (fallback : Response -> string) (fetched : FetchResult)
  : Response + Client.Thrown :=
  match fetched with
  | FetchRejects t => inr t
  | FetchResolves response =>
    if negb (ok response) then
      match json response with
      | JsonRejects t => inr t
      | JsonResolves errorData =>
        inr (Client.ErrorObject
               (Js.or_else (message errorData) (fallback response)))
      end
    else inl response
  end.

(** [await response.json()] of a response that passed the check. *)
Definition parsed (fallback : Response -> string) (fetched : FetchResult)
  : Json + Client.Thrown :=
  match checked fallback fetched with
  | inl response =>
    match json response with
    | JsonRejects t => inr t
    | JsonResolves v => inl v
    end
  | inr e => inr e
  end.

Definition error_toast (e : Client.Thrown) : Toast :=
  mkToast "Erreur" (message_of e) (Some "destructive").

(** [fetchBooks]; [user_id] is [user?.id] of the session. *)
Definition fetchBooks (net : Net) (user_id : option string)
    (statusFilter : option string) (archivedFilter : option bool)
    (s : State) : State :=
  if negb (Js.truthy_opt user_id) then s
  else
    let s := setError None (setLoading true s) in
    let request := mkRequest GET (library_url statusFilter archivedFilter)
                     NoBody in
    let s := called request s in
    let s :=
      match parsed http_error (net request) with
      | inl v => setBooks (data v) s
      | inr e => toast (error_toast e) (setError (message_of e) s)
      end in
    setLoading false s.

(** The reload every handler ends with, from the filters of the page. *)
Definition reload (net : Net) (user_id : option string) (s : State) : State :=
  fetchBooks net user_id (Some (filterStatus s))
    (selectedArchiveStatus (filterArchiveStatus s)) s.

Definition handleDeleteBook (net : Net) (user_id : option string)
    (s : State) : State :=
  match bookId (delete_modal (modals s)) with
  | None => s
  | Some bookId =>
    if negb (Js.truthy bookId) then s
    else
      let request := mkRequest DELETE ("/api/library/" ++ bookId) NoBody in
      let s := called request s in
      match checked http_error (net request) with
      | inl _ =>
        reload net user_id
          (toast (mkToast "Succès"
                    (Some "Livre supprimé avec succès de votre bibliothèque.")
                    None) s)
      | inr e => toast (error_toast e) s
      end
  end.

(** [!book?.is_archived] for the book with that id in the list. *)
Definition newArchiveStatus (bookId : string) (s : State) : bool :=
  negb match find (fun b => id b =? bookId) (books s) with
       | Some b => isCurrentlyArchived b
       | None => false
       end.

Definition handleArchiveBook (net : Net) (user_id : option string)
    (s : State) : State :=
  match bookId (archive_modal (modals s)) with
  | None => s
  | Some bookId =>
    if negb (Js.truthy bookId) then s
    else
      let request := mkRequest PUT ("/api/library/" ++ bookId)
                       (ArchiveBody (newArchiveStatus bookId s)) in
      let s' := called request s in
      match checked http_error (net request) with
      | inl _ =>
        reload net user_id
          (toast (mkToast "Succès"
                    (Some ("Livre "
                           ++ (if newArchiveStatus bookId s then "archivé"
                               else "désarchivé")
                           ++ " avec succès."))
                    None) s')
      | inr e => toast (error_toast e) s'
      end
  end.

Definition badge_toast (badge : Badge) : Toast :=
  mkToast "Nouveau badge débloqué !"
          (Some ("Vous avez obtenu le badge : " ++ badge_name badge)) None.

Definition handleStatusChange (net : Net) (user_id : option string)
    (bookId newStatus : string) (s : State) : State :=
  let request := mkRequest PATCH ("/api/library/" ++ bookId ++ "/status")
                   (StatusBody newStatus) in
  let s := called request s in
  match parsed (fun _ => "Failed to update book status.") (net request) with
  | inl v =>
    let s :=
      match awardedBadges v with
      | Some badges => fold_left (fun s badge => toast (badge_toast badge) s)
                         badges s
      | None => s
      end in
    reload net user_id s
  | inr e => toast (error_toast e) s
  end.

(** [getArchiveBookInfo().isCurrentlyArchived]. *)
Definition getArchiveBookInfo (s : State) : bool :=
  match bookId (archive_modal (modals s)) with
  | None => false
  | Some bookId =>
    if negb (Js.truthy bookId) then false
    else
      match find (fun b => id b =? bookId) (books s) with
      | Some b => isCurrentlyArchived b
      | None => false
      end
  end.

End Library.

(** ** More calls to run the route handler on *)

Module Calls.

(** A call without a session. *)
Definition env_anonymous : Env :=
  mkEnv None (NEXTAUTH_URL Scenario.env) (RESEND_FROM_EMAIL Scenario.env)
        (GroupJoinRequestEmail Scenario.env) (prisma_rejects Scenario.env)
        (render_rejects Scenario.env) (send_rejects Scenario.env)
        (generated_id Scenario.env).

(** A call while the store rejects every query. *)
Definition env_store_down : Env :=
  mkEnv (getSession Scenario.env) (NEXTAUTH_URL Scenario.env)
        (RESEND_FROM_EMAIL Scenario.env)
        (GroupJoinRequestEmail Scenario.env) (fun _ => true)
        (render_rejects Scenario.env) (send_rejects Scenario.env)
        (generated_id Scenario.env).

End Calls.

(** ** A small page to run the handlers of the library on *)

Module Shelf.

Definition dune : Library.Book :=
  Library.mkBook "b1" 2%Z None None None None (Some true)
    (Library.mkBookInfo "i1" "Dune" (Some "Frank Herbert") None None None
       None).

Definition emma : Library.Book :=
  Library.mkBook "b2" 1%Z None None None None None
    (Library.mkBookInfo "i2" "Emma" (Some "Jane Austen") None None None None).

Definition closed : Library.Modals :=
  Library.mkModals (Library.mkModal false None) (Library.mkModal false None).

Definition page : Library.State :=
  Library.mkState [dune; emma] false None "all" "all" closed [] [].

(** The page while the dialog of deletion is open on the first book. *)
Definition page_deleting : Library.State :=
  Library.mkState [dune; emma] false None "reading" "archived"
    (Library.openModal Library.delete "b1" closed) [] [].

(** The page while the dialog of archiving is open on the first book. *)
Definition page_archiving : Library.State :=
  Library.mkState [dune; emma] false None "all" "all"
    (Library.openModal Library.archive "b1" closed) [] [].

(** A server that refuses every call, without a message. *)
Definition refusing : Library.Net :=
  fun _ => Library.FetchResolves
             (Library.mkResponse false 403
                (Library.JsonResolves (Library.mkJson None [] None))).

(** A server that accepts every call and answers with the second book and
    one badge. *)
Definition accepting : Library.Net :=
  fun _ => Library.FetchResolves
             (Library.mkResponse true 200
                (Library.JsonResolves
                   (Library.mkJson None [emma]
                      (Some [Library.mkBadge "Lecteur"])))).

End Shelf.

(** * Properties *)

(** ** The notification loop *)

Lemma world_eta (w : World) : mkWorld (db w) (trace w) = w.
Proof. destruct w; reflexivity. Qed.

Lemma notify_admin_run env requester group g admin w :
  notify_admin env requester group g admin w =
  (Val tt,
   mkWorld (db w)
     (trace w ++ notification_events env requester group g admin)%list).
Proof.
  unfold notify_admin, notification_events, has_email.
  destruct (Js.truthy_opt (user_email (user admin))).
  - unfold try_catch, bind, render, resend_emails_send, console_error, emit,
      throw, ret, render_call, send_call, failure_log.
    destruct (render_rejects env (user admin)); simpl.
    + now rewrite <- app_assoc.
    + destruct (send_rejects env (user admin)); simpl;
        now rewrite <- !app_assoc.
  - unfold ret. now rewrite app_nil_r, world_eta.
Qed.

Lemma for_of_notify env requester group g admins : forall w,
  for_of admins (notify_admin env requester group g) w =
  (Val tt,
   mkWorld (db w)
     (trace w ++ flat_map (notification_events env requester group g) admins)%list).
Proof.
  induction admins as [|admin rest IH]; intro w; simpl.
  - unfold ret. now rewrite app_nil_r, world_eta.
  - unfold bind. rewrite notify_admin_run, IH. simpl.
    now rewrite <- app_assoc.
Qed.

(** ** The route handler, path by path *)

Lemma POST_body_run env requester g w :
  POST_body env requester g w =
  let u := session_user_id requester in
  let failed :=
    (Return (mkResponse "An internal error occurred." 500),
     after_internal_error w) in
  if prisma_rejects env GroupFindUnique then failed else
  match find_group (db w) g with
  | None => (Return (mkResponse "Group not found." 404), w)
  | Some group =>
    if prisma_rejects env GroupMemberFindUnique then failed else
    match find_member (db w) g u with
    | Some _ =>
      (Return (mkResponse "You are already a member of this group." 400), w)
    | None =>
      if prisma_rejects env GroupJoinRequestFindUnique then failed else
      if is_pending (find_request (db w) g u)
      then (Return (mkResponse
                      "You have already requested to join this group." 400), w)
      else if prisma_rejects env GroupJoinRequestUpsert then failed
      else (Return (mkResponse "Join request sent successfully." 201),
            after_success env requester group g w)
    end
  end.
Proof.
  pose proof (for_of_notify env requester) as loop.
  unfold POST_body, try_catch, prisma_group_findUnique,
    prisma_groupMember_findUnique, prisma_groupJoinRequest_findUnique,
    prisma_groupJoinRequest_upsert, prisma_call, after_internal_error,
    after_success, is_pending.
  cbv zeta.
  destruct (prisma_rejects env GroupFindUnique); [reflexivity|].
  cbv [bind read_db ret return_ throw console_error emit write_db].
  destruct (find_group (db w) g) as [group|]; [|reflexivity].
  destruct (prisma_rejects env GroupMemberFindUnique); [reflexivity|].
  destruct (find_member (db w) g (session_user_id requester));
    [reflexivity|].
  destruct (prisma_rejects env GroupJoinRequestFindUnique); [reflexivity|].
  destruct (find_request (db w) g (session_user_id requester)) as [r|];
    [destruct (RequestStatus_eqb (status r) PENDING); [reflexivity|] |];
    (destruct (prisma_rejects env GroupJoinRequestUpsert); [reflexivity|]);
    rewrite loop; reflexivity.
Qed.

Lemma create_signed_in env requester g w :
  signed_in env requester -> Js.truthy g = true ->
  create env g w = respond (POST_body env requester g) w.
Proof.
  intros [Hs Hid] Hg. unfold create, POST.
  now rewrite Hs, Hid, Hg.
Qed.

Lemma find_member_is_member d g u :
  is_member g u d = true <-> exists m, find_member d g u = Some m.
Proof.
  unfold is_member, find_member. split.
  - intros H. apply existsb_exists in H as (m & Hin & Hm).
    destruct (find (same_member_key g u) (groupMembers d)) eqn:E; eauto.
    apply (find_none _ _ E) in Hin. congruence.
  - intros [m Hm]. apply find_some in Hm as [Hin Hm].
    apply existsb_exists. eauto.
Qed.

Lemma find_member_not_member d g u :
  is_member g u d = false <-> find_member d g u = None.
Proof.
  destruct (find_member d g u) as [m|] eqn:E.
  - split; [intros H | discriminate].
    assert (is_member g u d = true) by (apply find_member_is_member; eauto).
    congruence.
  - split; [reflexivity | intros _].
    destruct (is_member g u d) eqn:E2; [|reflexivity].
    apply find_member_is_member in E2 as [m Hm]. congruence.
Qed.

Lemma find_group_exists d g :
  group_exists g d = true ->
  exists x, find_group d g = Some (mkGroupWithMembers x (admin_members d g)).
Proof.
  unfold group_exists, find_group. intros H.
  apply existsb_exists in H as (x & Hin & Hx).
  destruct (find (fun x => group_ident x =? g) (groups d)) eqn:E; eauto.
  apply (find_none _ _ E) in Hin. congruence.
Qed.

(** The scenario of the specification: Bob asks to join, Alice is told,
    Carol has no address and is passed over. *)
Example scenario_create :
  create Scenario.env "BookClub" Scenario.world =
  (mkResponse "Join request sent successfully." 201,
   mkWorld (Scenario.with_request PENDING)
     [Render "Alice" "Bob" "BookClub" "https://shelfy.fr/groups/BookClub/edit";
      EmailSend "Shelfy <noreply@shelfy.fr>" "alice@x.com"
        "Nouvelle demande pour rejoindre BookClub"]).
Proof. reflexivity. Qed.

Example scenario_accept :
  resolve false "BookClub" "request-1" accept (Scenario.with_request PENDING)
  = (Resolved ACCEPTED, Scenario.with_membership ACCEPTED).
Proof. reflexivity. Qed.

Example scenario_create_again :
  create Scenario.env "BookClub"
    (mkWorld (Scenario.with_membership ACCEPTED) []) =
  (mkResponse "You are already a member of this group." 400,
   mkWorld (Scenario.with_membership ACCEPTED) []).
Proof. reflexivity. Qed.

(** ** Rejections of [create] *)

(** C3: whenever a membership row exists for the pair, [create] answers 400
    "already a member", whatever the table of requests holds for the pair
    (nothing, or a row of any status), and leaves the world as it was. *)
Theorem create_already_member env requester g w :
  signed_in env requester ->
  Js.truthy g = true ->
  prisma_rejects env GroupFindUnique = false ->
  prisma_rejects env GroupMemberFindUnique = false ->
  group_exists g (db w) = true ->
  is_member g (session_user_id requester) (db w) = true ->
  create env g w =
  (mkResponse "You are already a member of this group." 400, w).
Proof.
  intros Hs Hg Hf1 Hf2 Hgroup Hmember.
  rewrite (create_signed_in env requester g w Hs Hg). unfold respond.
  rewrite POST_body_run. cbv zeta. rewrite Hf1.
  destruct (find_group_exists _ _ Hgroup) as [x ->]. rewrite Hf2.
  apply find_member_is_member in Hmember as [m ->]. reflexivity.
Qed.

Lemma create_already_member_witness :
  create Scenario.env "BookClub"
    (mkWorld (Scenario.with_membership DECLINED) []) =
  (mkResponse "You are already a member of this group." 400,
   mkWorld (Scenario.with_membership DECLINED) []).
Proof.
  apply (create_already_member Scenario.env Scenario.bob_session);
    try reflexivity.
  split; reflexivity.
Defined.

(** Every run of [create] ends in one of three ways. *)
Lemma create_outcomes env g w :
  (In (fst (create env g w)) refusals /\ snd (create env g w) = w) \/
  create env g w =
    (mkResponse "An internal error occurred." 500, after_internal_error w) \/
  (exists requester group,
      signed_in env requester /\
      find_group (db w) g = Some group /\
      find_member (db w) g (session_user_id requester) = None /\
      is_pending (find_request (db w) g (session_user_id requester)) = false /\
      prisma_rejects env GroupJoinRequestUpsert = false /\
      create env g w =
        (mkResponse "Join request sent successfully." 201,
         after_success env requester group g w)).
Proof.
  unfold create, POST, refusals.
  destruct (getSession env) as [[[requester|]]|] eqn:Hs;
    try (left; simpl; auto; fail).
  destruct (Js.truthy (session_user_id requester)) eqn:Hid;
    [|left; simpl; auto].
  destruct (Js.truthy g) eqn:Hg; [|left; simpl; auto]. simpl negb. cbv iota.
  unfold respond. rewrite POST_body_run. cbv zeta.
  destruct (prisma_rejects env GroupFindUnique); [right; left; reflexivity|].
  destruct (find_group (db w) g) as [group|] eqn:Hgroup;
    [|left; simpl; auto].
  destruct (prisma_rejects env GroupMemberFindUnique);
    [right; left; reflexivity|].
  destruct (find_member (db w) g (session_user_id requester)) eqn:Hm;
    [left; simpl; auto 6|].
  destruct (prisma_rejects env GroupJoinRequestFindUnique);
    [right; left; reflexivity|].
  destruct (is_pending _) eqn:Hp; [left; simpl; auto 7|].
  destruct (prisma_rejects env GroupJoinRequestUpsert) eqn:Hu;
    [right; left; reflexivity|].
  right; right. exists requester, group. repeat split; auto.
Qed.

(** C9: each of the five refusals of [create] (401 unauthenticated, 400
    missing group id, 404 unknown group, 400 already a member, 400 already
    pending) is returned before anything is written: the world after the
    call, and with it the tables of requests and memberships, is the world
    before it; more generally a call that does not answer 201 leaves the
    store as it was. *)
Theorem create_refusal_writes_nothing env g w :
  (In (fst (create env g w)) refusals -> snd (create env g w) = w) /\
  (http_status (fst (create env g w)) <> 201 ->
   db (snd (create env g w)) = db w).
Proof.
  destruct (create_outcomes env g w)
    as [[_ Hw] | [E | (requester & group & _ & _ & _ & _ & _ & E)]].
  - rewrite Hw. auto.
  - rewrite E. simpl. split; [|reflexivity].
    unfold refusals. simpl. intros H.
    repeat (destruct H as [H|H]; [discriminate H|]). destruct H.
  - rewrite E. simpl. split; [|congruence].
    unfold refusals. simpl. intros H.
    repeat (destruct H as [H|H]; [discriminate H|]). destruct H.
Qed.

Lemma create_refusal_writes_nothing_witness :
  let w := mkWorld (Scenario.with_request PENDING) [] in
  (In (fst (create Scenario.env "BookClub" w)) refusals /\
   snd (create Scenario.env "BookClub" w) = w) /\
  (http_status (fst (create Scenario.env_upsert_down "BookClub" Scenario.world))
   <> 201 /\
   db (snd (create Scenario.env_upsert_down "BookClub" Scenario.world))
   = Scenario.store).
Proof.
  intro w.
  assert (Hin : In (fst (create Scenario.env "BookClub" w)) refusals)
    by (vm_compute; auto 6).
  assert (Hne : http_status
                  (fst (create Scenario.env_upsert_down "BookClub"
                          Scenario.world)) <> 201)
    by (vm_compute; discriminate).
  exact (conj
           (conj Hin
              (proj1 (create_refusal_writes_nothing Scenario.env "BookClub" w)
                 Hin))
           (conj Hne
              (proj2 (create_refusal_writes_nothing Scenario.env_upsert_down
                        "BookClub" Scenario.world) Hne))).
Defined.

(** ** Notifications *)

Lemma attempts_app t1 t2 : attempts (t1 ++ t2) = (attempts t1 ++ attempts t2)%list.
Proof. apply filter_app. Qed.

Lemma sends_app t1 t2 : sends (t1 ++ t2) = (sends t1 ++ sends t2)%list.
Proof. apply filter_app. Qed.

Lemma logged_app t1 t2 : logged (t1 ++ t2) = (logged t1 ++ logged t2)%list.
Proof. apply filter_app. Qed.

Section Loop.

Variables (env : Env) (requester : SessionUser) (group : GroupWithMembers)
          (g : string).

Lemma attempts_of_loop admins :
  attempts (flat_map (notification_events env requester group g) admins) =
  map (render_call env requester group g) (filter has_email admins).
Proof.
  induction admins as [|a rest IH]; [reflexivity|].
  cbn [flat_map filter]. rewrite attempts_app, IH.
  unfold notification_events.
  destruct (has_email a); [|reflexivity].
  destruct (render_rejects env (user a)); [reflexivity|].
  destruct (send_rejects env (user a)); reflexivity.
Qed.

Lemma sends_of_loop admins :
  sends (flat_map (notification_events env requester group g) admins) =
  map (send_call env group)
    (filter (fun a => has_email a && negb (render_rejects env (user a)))
       admins).
Proof.
  induction admins as [|a rest IH]; [reflexivity|].
  cbn [flat_map filter]. rewrite sends_app, IH.
  unfold notification_events.
  destruct (has_email a); [|reflexivity].
  destruct (render_rejects env (user a)); [reflexivity|].
  destruct (send_rejects env (user a)); reflexivity.
Qed.

Lemma logged_of_loop admins :
  logged (flat_map (notification_events env requester group g) admins) =
  map failure_log
    (filter (fun a => has_email a && notification_failed env a) admins).
Proof.
  induction admins as [|a rest IH]; [reflexivity|].
  cbn [flat_map filter]. rewrite logged_app, IH.
  unfold notification_events, notification_failed.
  destruct (has_email a); [|reflexivity].
  destruct (render_rejects env (user a)); [reflexivity|].
  destruct (send_rejects env (user a)); reflexivity.
Qed.

End Loop.

Lemma create_success env requester g w group :
  signed_in env requester ->
  Js.truthy g = true ->
  prisma_available env ->
  find_group (db w) g = Some group ->
  is_member g (session_user_id requester) (db w) = false ->
  is_pending (find_request (db w) g (session_user_id requester)) = false ->
  create env g w =
  (mkResponse "Join request sent successfully." 201,
   after_success env requester group g w).
Proof.
  intros Hs Hg Hdb Hgroup Hmember Hpending.
  rewrite (create_signed_in env requester g w Hs Hg). unfold respond.
  rewrite POST_body_run. cbv zeta. rewrite !Hdb, Hgroup.
  apply find_member_not_member in Hmember. now rewrite Hmember, Hpending.
Qed.

(** C5: once the checks have passed and the upsert is written, [create]
    answers 201 whatever the outcome of any notification; every admin with
    an address gets an attempt, in the order of the list, also after an
    earlier attempt has failed; and a failed attempt leaves one line in the
    log and nothing in the response or in the store. *)
Theorem create_succeeds_despite_notification_failures
    env requester g w group :
  signed_in env requester ->
  Js.truthy g = true ->
  prisma_available env ->
  find_group (db w) g = Some group ->
  is_member g (session_user_id requester) (db w) = false ->
  is_pending (find_request (db w) g (session_user_id requester)) = false ->
  let w' := snd (create env g w) in
  fst (create env g w) = mkResponse "Join request sent successfully." 201 /\
  db w' =
    set_requests (db w)
      (upsert_request g (session_user_id requester) (generated_id env)
         (groupJoinRequests (db w))) /\
  attempts (trace w') =
    (attempts (trace w) ++
     map (render_call env requester group g)
       (filter has_email (members group)))%list /\
  sends (trace w') =
    (sends (trace w) ++
     map (send_call env group)
       (filter (fun a => has_email a && negb (render_rejects env (user a)))
          (members group)))%list /\
  logged (trace w') =
    (logged (trace w) ++
     map failure_log
       (filter (fun a => has_email a && notification_failed env a)
          (members group)))%list.
Proof.
  intros Hs Hg Hdb Hgroup Hmember Hpending.
  rewrite (create_success env requester g w group) by assumption.
  cbn [fst snd after_success db trace].
  rewrite attempts_app, sends_app, logged_app.
  now rewrite attempts_of_loop, sends_of_loop, logged_of_loop.
Qed.

Lemma create_succeeds_despite_notification_failures_witness :
  fst (create Scenario.env_mail_down "BookClub" Scenario.world) =
    mkResponse "Join request sent successfully." 201 /\
  logged (trace (snd (create Scenario.env_mail_down "BookClub"
                        Scenario.world))) =
    [ConsoleError "Failed to send email to alice@x.com:"].
Proof.
  pose proof (create_succeeds_despite_notification_failures
                Scenario.env_mail_down Scenario.bob_session "BookClub"
                Scenario.world
                (mkGroupWithMembers (mkGroup "BookClub" "BookClub")
                   (admin_members Scenario.store "BookClub"))
                (conj eq_refl eq_refl) eq_refl (fun c => eq_refl)
                eq_refl eq_refl eq_refl)
    as (Hr & _ & _ & _ & Hl).
  exact (conj Hr Hl).
Defined.

Lemma after_internal_error_quiet w :
  attempts (trace (after_internal_error w)) = attempts (trace w) /\
  sends (trace (after_internal_error w)) = sends (trace w).
Proof.
  unfold after_internal_error. cbn [trace].
  rewrite attempts_app, sends_app. cbn. now rewrite !app_nil_r.
Qed.

(** C10: no notification is attempted unless the upsert has succeeded.
    While the store rejects the upsert, a call makes no attempt and sends
    nothing, and a call that gets as far as the upsert answers 500 with
    only the error logged; a call whose trace gained an attempt has written
    the upsert; and the loop passes over an admin whose e-mail is null
    without any effect, so nothing is attempted, sent or logged for it. *)
Theorem create_notifies_only_after_upsert :
  (forall env g w,
      prisma_rejects env GroupJoinRequestUpsert = true ->
      attempts (trace (snd (create env g w))) = attempts (trace w) /\
      sends (trace (snd (create env g w))) = sends (trace w) /\
      http_status (fst (create env g w)) <> 201) /\
  (forall env requester g w group,
      signed_in env requester ->
      Js.truthy g = true ->
      prisma_rejects env GroupFindUnique = false ->
      prisma_rejects env GroupMemberFindUnique = false ->
      prisma_rejects env GroupJoinRequestFindUnique = false ->
      find_group (db w) g = Some group ->
      is_member g (session_user_id requester) (db w) = false ->
      is_pending (find_request (db w) g (session_user_id requester)) = false ->
      prisma_rejects env GroupJoinRequestUpsert = true ->
      create env g w =
      (mkResponse "An internal error occurred." 500,
       mkWorld (db w)
         (trace w ++ [ConsoleError "Error processing join request:"]))) /\
  (forall env g w,
      attempts (trace (snd (create env g w))) <> attempts (trace w) ->
      prisma_rejects env GroupJoinRequestUpsert = false /\
      fst (create env g w) = mkResponse "Join request sent successfully." 201 /\
      exists requester,
        signed_in env requester /\
        db (snd (create env g w)) =
          set_requests (db w)
            (upsert_request g (session_user_id requester) (generated_id env)
               (groupJoinRequests (db w)))) /\
  (forall env requester group g admin w,
      user_email (user admin) = None ->
      notify_admin env requester group g admin w = (Val tt, w)).
Proof.
  repeat apply conj.
  - intros env g w Hu.
    destruct (create_outcomes env g w)
      as [[Hin Hw] | [E | (requester & group & _ & _ & _ & _ & Hu' & _)]].
    + rewrite Hw. repeat split.
      unfold refusals in Hin. simpl in Hin.
      repeat (destruct Hin as [Hin|Hin]; [rewrite <- Hin; discriminate|]).
      destruct Hin.
    + rewrite E. cbn [fst snd].
      destruct (after_internal_error_quiet w) as [-> ->].
      repeat split. discriminate.
    + congruence.
  - intros env requester g w group Hs Hg H1 H2 H3 Hgroup Hmember Hpending Hu.
    rewrite (create_signed_in env requester g w Hs Hg). unfold respond.
    rewrite POST_body_run. cbv zeta. rewrite H1, Hgroup, H2.
    apply find_member_not_member in Hmember.
    rewrite Hmember, H3, Hpending, Hu. reflexivity.
  - intros env g w Hnew.
    destruct (create_outcomes env g w)
      as [[_ Hw] | [E | (requester & group & Hs & _ & _ & _ & Hu & E)]].
    + rewrite Hw in Hnew. now destruct Hnew.
    + rewrite E in Hnew. cbn [snd] in Hnew.
      destruct (after_internal_error_quiet w) as [Ha _]. now destruct Hnew.
    + rewrite E. cbn [fst snd after_success db]. eauto.
  - intros env requester group g admin w Hnull.
    unfold notify_admin. rewrite Hnull. reflexivity.
Qed.

Lemma create_notifies_only_after_upsert_witness :
  create Scenario.env_upsert_down "BookClub" Scenario.world =
    (mkResponse "An internal error occurred." 500,
     mkWorld Scenario.store [ConsoleError "Error processing join request:"]) /\
  attempts (trace (snd (create Scenario.env_upsert_down "BookClub"
                          Scenario.world))) = [] /\
  prisma_rejects Scenario.env GroupJoinRequestUpsert = false /\
  notify_admin Scenario.env Scenario.bob_session
    (mkGroupWithMembers (mkGroup "BookClub" "BookClub") [])
    "BookClub"
    (mkMemberWithUser (mkGroupMember "BookClub" "carol" ADMIN) Scenario.carol)
    Scenario.world = (Val tt, Scenario.world).
Proof.
  destruct create_notifies_only_after_upsert as (H1 & H2 & H3 & H4).
  assert (Hnew : attempts (trace (snd (create Scenario.env "BookClub"
                                         Scenario.world)))
                 <> attempts (trace Scenario.world))
    by (vm_compute; discriminate).
  exact (conj
           (H2 Scenario.env_upsert_down Scenario.bob_session "BookClub"
               Scenario.world
               (mkGroupWithMembers (mkGroup "BookClub" "BookClub")
                  (admin_members Scenario.store "BookClub"))
               (conj eq_refl eq_refl) eq_refl eq_refl eq_refl eq_refl eq_refl
               eq_refl eq_refl eq_refl)
           (conj
              (proj1 (H1 Scenario.env_upsert_down "BookClub" Scenario.world
                         eq_refl))
              (conj
                 (proj1 (H3 Scenario.env "BookClub" Scenario.world Hnew))
                 (H4 Scenario.env Scenario.bob_session
                     (mkGroupWithMembers (mkGroup "BookClub" "BookClub") [])
                     "BookClub"
                     (mkMemberWithUser
                        (mkGroupMember "BookClub" "carol" ADMIN)
                        Scenario.carol)
                     Scenario.world eq_refl)))).
Defined.

(** ** The upsert *)

Lemma with_status_key g u s r :
  same_request_key g u (with_status s r) = same_request_key g u r.
Proof. reflexivity. Qed.

Lemma same_request_key_eq g u r :
  same_request_key g u r = true <-> groupId r = g /\ userId r = u.
Proof.
  unfold same_request_key. rewrite andb_true_iff, !String.eqb_eq. tauto.
Qed.

Lemma find_existsb {X} (p : X -> bool) rows x :
  find p rows = Some x -> existsb p rows = true.
Proof.
  intros H. apply find_some in H as [Hin Hp]. apply existsb_exists. eauto.
Qed.

Lemma existsb_false_filter {X} (p : X -> bool) rows :
  existsb p rows = false -> filter p rows = [].
Proof.
  induction rows as [|x rest IH]; [reflexivity|]. simpl.
  destruct (p x); [discriminate | exact IH].
Qed.

Lemma upsert_request_update g u newid rows :
  existsb (same_request_key g u) rows = true ->
  upsert_request g u newid rows =
  map (fun r => if same_request_key g u r then with_status PENDING r else r)
      rows.
Proof. unfold upsert_request. now intros ->. Qed.

Lemma find_updated g u rows : forall r,
  find (same_request_key g u) rows = Some r ->
  find (same_request_key g u)
    (map (fun r => if same_request_key g u r then with_status PENDING r else r)
       rows) = Some (with_status PENDING r).
Proof.
  induction rows as [|x rest IH]; intros r; simpl; [discriminate|].
  destruct (same_request_key g u x) eqn:E.
  - intros [= ->]. now rewrite with_status_key, E.
  - rewrite E. apply IH.
Qed.

Lemma updated_ids g u rows :
  map request_id
    (map (fun r => if same_request_key g u r then with_status PENDING r else r)
       rows) = map request_id rows.
Proof.
  rewrite map_map. apply map_ext. intros r.
  now destruct (same_request_key g u r).
Qed.

Lemma updated_others g u rows r' :
  same_request_key g u r' = false ->
  In r' (map (fun r => if same_request_key g u r then with_status PENDING r
                       else r) rows) <-> In r' rows.
Proof.
  intros Hr'. rewrite in_map_iff. split.
  - intros (x & Hx & Hin). destruct (same_request_key g u x) eqn:E.
    + subst r'. rewrite with_status_key in Hr'. congruence.
    + now subst.
  - intros Hin. exists r'. now rewrite Hr'.
Qed.

(** C4: when the pair's request is DECLINED and the user is not a member,
    [create] answers 201 and rewrites that very row to PENDING: the row
    found under the pair's key afterwards is the old one with its status
    changed and its id kept, the table has the same ids in the same order
    (so no row was added), the rows of other pairs are the same, and no
    membership was touched. *)
Theorem create_reopens_declined env requester g w r :
  signed_in env requester ->
  Js.truthy g = true ->
  prisma_available env ->
  group_exists g (db w) = true ->
  is_member g (session_user_id requester) (db w) = false ->
  find_request (db w) g (session_user_id requester) = Some r ->
  status r = DECLINED ->
  let w' := snd (create env g w) in
  fst (create env g w) = mkResponse "Join request sent successfully." 201 /\
  find_request (db w') g (session_user_id requester) =
    Some (mkGroupJoinRequest (request_id r) g (session_user_id requester)
            PENDING) /\
  map request_id (groupJoinRequests (db w')) =
    map request_id (groupJoinRequests (db w)) /\
  length (groupJoinRequests (db w')) = length (groupJoinRequests (db w)) /\
  (forall r', same_request_key g (session_user_id requester) r' = false ->
              In r' (groupJoinRequests (db w')) <->
              In r' (groupJoinRequests (db w))) /\
  groupMembers (db w') = groupMembers (db w).
Proof.
  intros Hs Hg Hdb Hgroup Hmember Hfind Hdeclined.
  destruct (find_group_exists _ _ Hgroup) as [x Hx].
  assert (Hpending :
            is_pending (find_request (db w) g (session_user_id requester))
            = false)
    by (rewrite Hfind; simpl; now rewrite Hdeclined).
  cbv zeta.
  rewrite (create_success env requester g w _ Hs Hg Hdb Hx Hmember Hpending).
  unfold find_request in *.
  cbn [fst snd after_success db groupJoinRequests groupMembers set_requests].
  rewrite (upsert_request_update _ _ _ _ (find_existsb _ _ _ Hfind)).
  repeat split.
  - rewrite (find_updated _ _ _ _ Hfind). unfold with_status.
    apply find_some in Hfind as [_ Hkey].
    apply same_request_key_eq in Hkey as [-> ->]. reflexivity.
  - apply updated_ids.
  - now rewrite length_map.
  - now apply updated_others.
  - now apply updated_others.
Qed.

Lemma create_reopens_declined_witness :
  fst (create Scenario.env_later "BookClub"
         (mkWorld (Scenario.with_request DECLINED) [])) =
    mkResponse "Join request sent successfully." 201 /\
  groupJoinRequests
    (db (snd (create Scenario.env_later "BookClub"
                (mkWorld (Scenario.with_request DECLINED) [])))) =
    [mkGroupJoinRequest "request-1" "BookClub" "bob" PENDING].
Proof.
  pose proof (create_reopens_declined
                Scenario.env_later Scenario.bob_session "BookClub"
                (mkWorld (Scenario.with_request DECLINED) [])
                (mkGroupJoinRequest "request-1" "BookClub" "bob" DECLINED)
                (conj eq_refl eq_refl) eq_refl (fun c => eq_refl)
                eq_refl eq_refl eq_refl eq_refl)
    as (Hr & _).
  exact (conj Hr eq_refl).
Defined.

(** ** Rows selected by a key *)

Section Rows.

Context {X : Type}.
Variables (p : X -> bool) (f : X -> X).

Lemma filter_map_preserving (q : X -> bool) rows :
  (forall x, q (f x) = q x) ->
  filter q (map (fun x => if p x then f x else x) rows) =
  map (fun x => if p x then f x else x) (filter q rows).
Proof.
  intros Hq. induction rows as [|x rest IH]; [reflexivity|]. simpl.
  assert (E : q (if p x then f x else x) = q x)
    by (destruct (p x); [apply Hq | reflexivity]).
  rewrite E. destruct (q x); simpl; now rewrite IH.
Qed.

(** The row [find] returns is the one [update_first] rewrites. *)
Lemma find_split rows : forall x,
  find p rows = Some x ->
  exists before after,
    rows = (before ++ x :: after)%list /\
    (forall y, In y before -> p y = false) /\
    update_first p f rows = (before ++ f x :: after)%list.
Proof.
  induction rows as [|y rest IH]; intros x; simpl; [discriminate|].
  destruct (p y) eqn:E.
  - intros [= ->]. exists [], rest. repeat split. intros y [].
  - intros H. destruct (IH x H) as (before & after & -> & Hb & Hu).
    exists (y :: before), after. simpl. rewrite Hu. repeat split.
    intros z [<- | Hz]; auto.
Qed.

Lemma find_skip before x after :
  (forall y, In y before -> p y = false) -> p x = true ->
  find p (before ++ x :: after) = Some x.
Proof.
  intros Hb Hx. induction before as [|y rest IH]; simpl.
  - now rewrite Hx.
  - rewrite (Hb y (or_introl eq_refl)). apply IH.
    intros z Hz. apply Hb. now right.
Qed.

Lemma filter_one (rows : list X) x :
  length (filter p rows) <= 1 -> find p rows = Some x ->
  filter p rows = [x].
Proof.
  induction rows as [|y rest IH]; simpl; [discriminate|].
  destruct (p y) eqn:E.
  - intros Hlen [= ->]. simpl in Hlen.
    destruct (filter p rest); [reflexivity | simpl in Hlen; lia].
  - apply IH.
Qed.

End Rows.

Lemma filter_length_two {X} (q : X -> bool) before x after y :
  q x = true -> q y = true -> In y (before ++ after) ->
  2 <= length (filter q (before ++ x :: after)).
Proof.
  intros Hx Hy Hin. rewrite filter_app, length_app. simpl. rewrite Hx. simpl.
  apply in_app_or in Hin as [Hin | Hin].
  - assert (H : In y (filter q before)) by (apply filter_In; auto).
    destruct (filter q before); [destruct H | simpl; lia].
  - assert (H : In y (filter q after)) by (apply filter_In; auto).
    destruct (filter q after); [destruct H | simpl; lia].
Qed.

(** ** The unique constraint is kept *)

Lemma upsert_request_unique g u newid rows :
  (forall g' u', length (filter (same_request_key g' u') rows) <= 1) ->
  forall g' u',
    length (filter (same_request_key g' u') (upsert_request g u newid rows))
    <= 1.
Proof.
  intros Hu g' u'. unfold upsert_request.
  destruct (existsb (same_request_key g u) rows) eqn:E.
  - rewrite filter_map_preserving by (intro; apply with_status_key).
    rewrite length_map. apply Hu.
  - rewrite filter_app, length_app. simpl.
    destruct (same_request_key g' u' _) eqn:K; simpl.
    + apply same_request_key_eq in K as [<- <-]. simpl.
      rewrite (existsb_false_filter _ _ E). simpl. lia.
    + specialize (Hu g' u'). lia.
Qed.

Lemma update_first_keys g u (p : GroupJoinRequest -> bool) s rows :
  length (filter (same_request_key g u) (update_first p (with_status s) rows))
  = length (filter (same_request_key g u) rows).
Proof.
  induction rows as [|x rest IH]; [reflexivity|]. simpl.
  destruct (p x); simpl.
  - rewrite with_status_key. now destruct (same_request_key g u x).
  - destruct (same_request_key g u x); simpl; now rewrite IH.
Qed.

(** ** The lifecycle keeps the store consistent *)

Lemma in_upsert_request g u newid rows r :
  In r (upsert_request g u newid rows) ->
  (In r rows /\ same_request_key g u r = false) \/
  (status r = PENDING /\ groupId r = g /\ userId r = u).
Proof.
  unfold upsert_request.
  destruct (existsb (same_request_key g u) rows) eqn:E.
  - rewrite in_map_iff. intros (x & <- & Hin).
    destruct (same_request_key g u x) eqn:K; [right | left; auto].
    apply same_request_key_eq in K. simpl. tauto.
  - intros H. apply in_app_or in H as [H | [<- | []]]; [|right; auto].
    destruct (same_request_key g u r) eqn:K; [|left; auto].
    exfalso. assert (Hf : In r (filter (same_request_key g u) rows))
      by (apply filter_In; auto).
    revert Hf. now rewrite (existsb_false_filter _ _ E).
Qed.

Lemma consistent_start d : groupJoinRequests d = [] -> consistent d.
Proof.
  intros E. split.
  - intros g u. unfold requests_of. rewrite E. simpl. lia.
  - rewrite E. intros r [].
  - rewrite E. intros r [].
Qed.

Lemma consistent_create env g w :
  consistent (db w) -> consistent (db (snd (create env g w))).
Proof.
  intros [Hu Ha Hp].
  destruct (create_outcomes env g w)
    as [[_ ->] | [-> | (requester & group & _ & _ & Hm & _ & _ & ->)]];
    [now split | now split |].
  apply find_member_not_member in Hm.
  cbn [snd after_success db]. split.
  - intros g' u'. apply upsert_request_unique. exact Hu.
  - intros r Hin Hacc. cbn [groupJoinRequests set_requests] in Hin.
    apply in_upsert_request in Hin as [[Hin _] | [Hs _]]; [|congruence].
    exact (Ha r Hin Hacc).
  - intros r Hin Hpend. cbn [groupJoinRequests set_requests] in Hin.
    apply in_upsert_request in Hin as [[Hin _] | (_ & -> & ->)].
    + exact (Hp r Hin Hpend).
    + exact Hm.
Qed.

Lemma is_member_added g u d g' u' rows :
  is_member g' u'
    (mkDb (users d) (groups d)
       (groupMembers d ++ [mkGroupMember g u MEMBER])%list rows) =
  is_member g' u' d || ((g =? g') && (u =? u')).
Proof.
  unfold is_member. cbn [groupMembers]. rewrite existsb_app. simpl.
  unfold same_member_key. simpl. now rewrite orb_false_r.
Qed.

Lemma request_in_group_eq g rid r :
  request_in_group g rid r = true -> request_id r = rid /\ groupId r = g.
Proof.
  unfold request_in_group. rewrite andb_true_iff, !String.eqb_eq. tauto.
Qed.

Lemma consistent_resolve store_rejects g rid a d :
  consistent d -> consistent (snd (resolve store_rejects g rid a d)).
Proof.
  intros [Hu Ha Hp]. unfold resolve.
  destruct (find_request_by_id d g rid) as [r0|] eqn:Hfind; [|now split].
  destruct (RequestStatus_eqb (status r0) PENDING) eqn:Hst; [|now split].
  unfold find_request_by_id in Hfind.
  destruct (find_some _ _ Hfind) as [Hin0 Hp0].
  apply request_in_group_eq in Hp0 as [_ Hg0].
  destruct a; simpl negb; cbv iota.
  - (* accept *)
    destruct (store_rejects || is_member g (userId r0) d) eqn:Hrej;
      [now split|].
    apply orb_false_iff in Hrej as [_ Hnot].
    destruct (find_split (request_in_group g rid) (with_status ACCEPTED)
                _ _ Hfind) as (before & after & Hrows & _ & Hupd).
    cbn [snd]. split.
    + intros g' u'. unfold requests_of. cbn [groupJoinRequests].
      rewrite update_first_keys. apply Hu.
    + intros r Hin Hacc. cbn [groupJoinRequests] in Hin.
      rewrite is_member_added. apply orb_true_iff.
      rewrite Hupd in Hin. apply in_app_or in Hin as [Hin | [<- | Hin]].
      * left. apply Ha; [rewrite Hrows; apply in_or_app; auto | exact Hacc].
      * right. simpl. now rewrite Hg0, !String.eqb_refl.
      * left. apply Ha; [|exact Hacc].
        rewrite Hrows. apply in_or_app. right. now right.
    + intros r Hin Hpend. cbn [groupJoinRequests] in Hin.
      rewrite is_member_added. apply orb_false_iff.
      rewrite Hupd in Hin.
      assert (Hold : In r (before ++ after)).
      { apply in_app_or in Hin as [Hin | [<- | Hin]];
          [apply in_or_app; auto | discriminate Hpend | apply in_or_app; auto]. }
      split.
      * apply Hp; [|exact Hpend]. rewrite Hrows.
        apply in_app_or in Hold as [H | H]; apply in_or_app; [left | right; right];
          exact H.
      * destruct ((g =? groupId r) && (userId r0 =? userId r)) eqn:K;
          [|reflexivity].
        apply andb_true_iff in K as [K1 K2].
        apply String.eqb_eq in K1, K2.
        pose proof (Hu (groupId r) (userId r)) as Hlen.
        unfold requests_of in Hlen. rewrite Hrows in Hlen.
        assert (2 <= length (filter (same_request_key (groupId r) (userId r))
                               (before ++ r0 :: after))).
        { apply filter_length_two with (y := r); trivial.
          - apply same_request_key_eq. split; congruence.
          - now apply same_request_key_eq. }
        lia.
  - (* decline *)
    destruct store_rejects; [now split|].
    destruct (find_split (request_in_group g rid) (with_status DECLINED)
                _ _ Hfind) as (before & after & Hrows & _ & Hupd).
    cbn [snd]. split.
    + intros g' u'. unfold requests_of. cbn [groupJoinRequests set_requests].
      rewrite update_first_keys. apply Hu.
    + intros r Hin Hacc. cbn [groupJoinRequests set_requests] in Hin.
      rewrite Hupd in Hin.
      apply in_app_or in Hin as [Hin | [<- | Hin]];
        [| discriminate Hacc |];
        (apply (Ha r); [rewrite Hrows; apply in_or_app | exact Hacc]);
        [left | right; right]; exact Hin.
    + intros r Hin Hpend. cbn [groupJoinRequests set_requests] in Hin.
      rewrite Hupd in Hin.
      apply in_app_or in Hin as [Hin | [<- | Hin]];
        [| discriminate Hpend |];
        (apply (Hp r); [rewrite Hrows; apply in_or_app | exact Hpend]);
        [left | right; right]; exact Hin.
Qed.

Lemma reachable_consistent d : reachable d -> consistent d.
Proof.
  induction 1 as [d Hstart | d d' _ IH Hstep].
  - now apply consistent_start.
  - destruct Hstep.
    + now apply consistent_create.
    + now apply consistent_resolve.
Qed.

(** C1: after any sequence of [create] and [resolve] steps the store holds
    at most one request row for every pair of a group and a user; and
    [create] never adds a row for a pair that already has one: it writes
    through the upsert keyed on the pair, which rewrites the row in place. *)
Theorem one_request_per_pair :
  (forall d, reachable d ->
     forall g u, length (requests_of g u d) <= 1) /\
  (forall env g w g' u',
     requests_of g' u' (db w) <> [] ->
     length (requests_of g' u' (db (snd (create env g w)))) =
     length (requests_of g' u' (db w))).
Proof.
  split.
  - intros d Hd. apply (consistent_unique d (reachable_consistent d Hd)).
  - intros env g w g' u' Hsome.
    destruct (create_outcomes env g w)
      as [[_ ->] | [-> | (requester & group & _ & _ & _ & _ & _ & ->)]];
      try reflexivity.
    unfold requests_of in *.
    cbn [snd after_success db groupJoinRequests set_requests].
    unfold upsert_request.
    destruct (existsb _ (groupJoinRequests (db w))) eqn:E.
    + rewrite filter_map_preserving by (intro; apply with_status_key).
      apply length_map.
    + rewrite filter_app. simpl.
      destruct (same_request_key g' u' _) eqn:K.
      * apply same_request_key_eq in K as [<- <-]. simpl in Hsome.
        now rewrite (existsb_false_filter _ _ E) in Hsome.
      * now rewrite app_nil_r.
Qed.

Lemma one_request_per_pair_witness :
  let d := db (snd (create Scenario.env_later "BookClub"
                      (mkWorld (snd (resolve false "BookClub" "request-1"
                                       decline
                                       (db (snd (create Scenario.env "BookClub"
                                                   Scenario.world)))))
                               []))) in
  reachable d /\
  length (requests_of "BookClub" "bob" d) <= 1 /\
  length (requests_of "BookClub" "bob" d) =
  length (requests_of "BookClub" "bob" (Scenario.with_request DECLINED)).
Proof.
  intro d.
  assert (Hd : reachable d).
  { apply reachable_step
      with (d := db (mkWorld (snd (resolve false "BookClub" "request-1" decline
                                     (db (snd (create Scenario.env "BookClub"
                                                 Scenario.world))))) []));
      [|apply step_create].
    apply reachable_step
      with (d := db (snd (create Scenario.env "BookClub" Scenario.world)));
      [|apply step_resolve].
    apply reachable_step with (d := db Scenario.world); [|apply step_create].
    apply reachable_start. reflexivity. }
  assert (Hsome : requests_of "BookClub" "bob"
                    (db (mkWorld (Scenario.with_request DECLINED) [])) <> [])
    by (vm_compute; discriminate).
  exact (conj Hd
           (conj (proj1 one_request_per_pair d Hd "BookClub" "bob")
                 (proj2 one_request_per_pair Scenario.env_later "BookClub"
                    (mkWorld (Scenario.with_request DECLINED) [])
                    "BookClub" "bob" Hsome))).
Defined.

(** ** Two calls in a row *)

Lemma create_already_pending env requester g w :
  signed_in env requester ->
  Js.truthy g = true ->
  prisma_available env ->
  group_exists g (db w) = true ->
  is_member g (session_user_id requester) (db w) = false ->
  is_pending (find_request (db w) g (session_user_id requester)) = true ->
  create env g w =
  (mkResponse "You have already requested to join this group." 400, w).
Proof.
  intros Hs Hg Hdb Hgroup Hmember Hpending.
  rewrite (create_signed_in env requester g w Hs Hg). unfold respond.
  rewrite POST_body_run. cbv zeta. rewrite !Hdb.
  destruct (find_group_exists _ _ Hgroup) as [x ->].
  apply find_member_not_member in Hmember. now rewrite Hmember, Hpending.
Qed.

Lemma find_after_upsert g u newid rows :
  exists r, find (same_request_key g u) (upsert_request g u newid rows) = Some r
            /\ status r = PENDING.
Proof.
  unfold upsert_request.
  destruct (existsb (same_request_key g u) rows) eqn:E.
  - destruct (find (same_request_key g u) rows) as [r|] eqn:F.
    + exists (with_status PENDING r). split; [|reflexivity].
      now apply find_updated.
    + apply existsb_exists in E as (x & Hin & Hx).
      apply (find_none _ _ F) in Hin. congruence.
  - exists (mkGroupJoinRequest newid g u PENDING). split; [|reflexivity].
    apply find_skip.
    + intros y Hy. destruct (same_request_key g u y) eqn:K; [|reflexivity].
      assert (Hf : In y (filter (same_request_key g u) rows))
        by (apply filter_In; auto).
      revert Hf. now rewrite (existsb_false_filter _ _ E).
    + unfold same_request_key. simpl. now rewrite !String.eqb_refl.
Qed.

Lemma pending_of_found g u d r :
  unique_requests d -> find_request d g u = Some r ->
  pending_of g u d = if RequestStatus_eqb (status r) PENDING then [r] else [].
Proof.
  intros Hu Hfind. unfold pending_of, requests_of.
  rewrite (filter_one _ _ r (Hu g u) Hfind). reflexivity.
Qed.

Lemma pending_of_missing g u d :
  find_request d g u = None -> pending_of g u d = [].
Proof.
  intros Hfind. unfold pending_of, requests_of.
  unfold find_request in Hfind.
  destruct (filter (same_request_key g u) (groupJoinRequests d)) as [|x l] eqn:E;
    [reflexivity|].
  assert (Hin : In x (filter (same_request_key g u) (groupJoinRequests d)))
    by (rewrite E; now left).
  apply filter_In in Hin as [Hin Hx].
  apply (find_none _ _ Hfind) in Hin. congruence.
Qed.

Lemma is_pending_pending_of g u d :
  unique_requests d ->
  is_pending (find_request d g u) = false <-> pending_of g u d = [].
Proof.
  intros Hu. destruct (find_request d g u) as [r|] eqn:Hfind.
  - rewrite (pending_of_found g u d r Hu Hfind). simpl.
    destruct (RequestStatus_eqb (status r) PENDING); split;
      trivial; discriminate.
  - rewrite pending_of_missing by assumption. now split.
Qed.

Lemma unique_after_success env requester group g w :
  unique_requests (db w) ->
  unique_requests (db (after_success env requester group g w)).
Proof.
  intros Hu g' u'. unfold requests_of.
  cbn [after_success db groupJoinRequests set_requests].
  apply upsert_request_unique. exact Hu.
Qed.

(** C2, as the code has it: for a signed-in user who is not a member of an
    existing group, in a store that respects the unique constraint, the
    second of two calls in a row is refused 400 "already requested" and
    writes nothing, and exactly one PENDING row for the pair is left. The
    first call succeeds when the pair had no PENDING row; when it had one,
    the first call is refused like the second and writes nothing. *)
Theorem create_twice env1 env2 requester g w :
  signed_in env1 requester ->
  signed_in env2 requester ->
  Js.truthy g = true ->
  prisma_available env1 ->
  prisma_available env2 ->
  group_exists g (db w) = true ->
  unique_requests (db w) ->
  is_member g (session_user_id requester) (db w) = false ->
  let u := session_user_id requester in
  let first := create env1 g w in
  let second := create env2 g (snd first) in
  (pending_of g u (db w) = [] ->
   fst first = mkResponse "Join request sent successfully." 201) /\
  (pending_of g u (db w) <> [] ->
   first = (mkResponse "You have already requested to join this group." 400,
            w)) /\
  fst second =
    mkResponse "You have already requested to join this group." 400 /\
  snd second = snd first /\
  length (pending_of g u (db (snd second))) = 1.
Proof.
  intros Hs1 Hs2 Hg Hdb1 Hdb2 Hgroup Hu Hmember. cbv zeta.
  destruct (find_group_exists _ _ Hgroup) as [x Hx].
  destruct (is_pending (find_request (db w) g (session_user_id requester)))
    eqn:Hpending.
  - (* a PENDING row is there already *)
    assert (Hsome : pending_of g (session_user_id requester) (db w) <> []).
    { intros E. apply (is_pending_pending_of _ _ _ Hu) in E. congruence. }
    rewrite (create_already_pending env1 requester g w) by assumption.
    cbn [fst snd].
    rewrite (create_already_pending env2 requester g w) by assumption.
    cbn [fst snd]. repeat split; try congruence.
    destruct (find_request (db w) g (session_user_id requester)) as [r|] eqn:F;
      [|discriminate].
    rewrite (pending_of_found _ _ _ r Hu F). simpl in Hpending.
    now rewrite Hpending.
  - (* the first call writes the row *)
    assert (Hnone : pending_of g (session_user_id requester) (db w) = [])
      by (now apply is_pending_pending_of).
    rewrite (create_success env1 requester g w _ Hs1 Hg Hdb1 Hx Hmember
               Hpending).
    cbn [fst snd].
    pose proof (unique_after_success env1 requester
                  (mkGroupWithMembers x (admin_members (db w) g)) g w Hu)
      as Hu'.
    destruct (find_after_upsert g (session_user_id requester)
                (generated_id env1) (groupJoinRequests (db w)))
      as (r & Hfind & Hst).
    set (w1 := after_success env1 requester _ g w) in *.
    assert (Hfind1 : find_request (db w1) g (session_user_id requester)
                     = Some r) by exact Hfind.
    assert (Hp1 : is_pending
                    (find_request (db w1) g (session_user_id requester))
                  = true) by (rewrite Hfind1; simpl; now rewrite Hst).
    rewrite (create_already_pending env2 requester g w1); trivial.
    cbn [fst snd]. repeat split; try congruence.
    rewrite (pending_of_found _ _ _ r Hu' Hfind1). now rewrite Hst.
Qed.

Lemma scenario_unique s : unique_requests (Scenario.with_request s).
Proof.
  intros g u. unfold requests_of. simpl.
  destruct (same_request_key g u _); simpl; lia.
Qed.

Lemma scenario_store_unique : unique_requests Scenario.store.
Proof. intros g u. unfold requests_of. simpl. lia. Qed.

Lemma create_twice_witness :
  fst (create Scenario.env "BookClub" Scenario.world) =
    mkResponse "Join request sent successfully." 201 /\
  fst (create Scenario.env_later "BookClub"
         (snd (create Scenario.env "BookClub" Scenario.world))) =
    mkResponse "You have already requested to join this group." 400 /\
  length (pending_of "BookClub" "bob"
            (db (snd (create Scenario.env_later "BookClub"
                        (snd (create Scenario.env "BookClub"
                                Scenario.world)))))) = 1.
Proof.
  pose proof (create_twice Scenario.env Scenario.env_later
                Scenario.bob_session "BookClub" Scenario.world
                (conj eq_refl eq_refl) (conj eq_refl eq_refl) eq_refl
                (fun c => eq_refl) (fun c => eq_refl) eq_refl
                scenario_store_unique eq_refl)
    as (H1 & _ & H2 & _ & H3).
  exact (conj (H1 eq_refl) (conj H2 H3)).
Defined.

(** C2 as stated fails: with no membership but a PENDING request already
    in the store, the first of the two calls is refused as well. *)
Lemma create_twice_first_call_refused :
  ~ (forall env1 env2 requester g w,
        signed_in env1 requester ->
        signed_in env2 requester ->
        Js.truthy g = true ->
        prisma_available env1 ->
        prisma_available env2 ->
        group_exists g (db w) = true ->
        unique_requests (db w) ->
        is_member g (session_user_id requester) (db w) = false ->
        http_status (fst (create env1 g w)) = 201 /\
        fst (create env2 g (snd (create env1 g w))) =
          mkResponse "You have already requested to join this group." 400 /\
        length (pending_of g (session_user_id requester)
                  (db (snd (create env2 g (snd (create env1 g w)))))) = 1).
Proof.
  intros claim.
  destruct (claim Scenario.env Scenario.env_later Scenario.bob_session
              "BookClub" (mkWorld (Scenario.with_request PENDING) [])
              (conj eq_refl eq_refl) (conj eq_refl eq_refl) eq_refl
              (fun c => eq_refl) (fun c => eq_refl) eq_refl
              (scenario_unique PENDING) eq_refl)
    as [Hfirst _].
  discriminate Hfirst.
Qed.

(** ** Resolution *)

(** C6: [resolve] fails NotFound (404) when the group has no request with
    that id, and also when the request is ACCEPTED or DECLINED; in both
    cases the store is left as it was. Stated on the resolution step as the
    specification words it. *)
Theorem resolve_not_found store_rejects g rid a d :
  (find_request_by_id d g rid = None \/
   exists r, find_request_by_id d g rid = Some r /\ status r <> PENDING) ->
  resolve store_rejects g rid a d = (NotFound, d) /\
  resolve_http_status (fst (resolve store_rejects g rid a d)) = 404.
Proof.
  intros H.
  assert (E : resolve store_rejects g rid a d = (NotFound, d)).
  { unfold resolve. destruct H as [-> | (r & -> & Hst)]; [reflexivity|].
    destruct (status r); [contradiction | reflexivity | reflexivity]. }
  now rewrite E.
Qed.

Lemma resolve_not_found_witness :
  (resolve false "BookClub" "request-1" accept
     (Scenario.with_membership ACCEPTED) =
   (NotFound, Scenario.with_membership ACCEPTED) /\
   resolve_http_status
     (fst (resolve false "BookClub" "request-1" accept
             (Scenario.with_membership ACCEPTED))) = 404) /\
  (resolve false "BookClub" "request-9" decline
     (Scenario.with_request PENDING) =
   (NotFound, Scenario.with_request PENDING) /\
   resolve_http_status
     (fst (resolve false "BookClub" "request-9" decline
             (Scenario.with_request PENDING))) = 404).
Proof.
  split.
  - apply (resolve_not_found false "BookClub" "request-1" accept
             (Scenario.with_membership ACCEPTED)).
    right. exists (mkGroupJoinRequest "request-1" "BookClub" "bob" ACCEPTED).
    split; [reflexivity | discriminate].
  - apply (resolve_not_found false "BookClub" "request-9" decline
             (Scenario.with_request PENDING)).
    left. reflexivity.
Defined.

(** C7: in a store the lifecycle can reach, every ACCEPTED request has its
    membership; and accepting a PENDING request either commits both
    effects - the request becomes ACCEPTED and a membership with role
    MEMBER is added for its user, who had none - or, when the store rejects
    the transaction, commits neither: after the step the user is a member
    exactly when the request is ACCEPTED. Stated on the resolution step as
    the specification words it. *)
Theorem resolve_accept_atomic d :
  reachable d ->
  (forall x, In x (groupJoinRequests d) -> status x = ACCEPTED ->
             is_member (groupId x) (userId x) d = true) /\
  (forall g rid r,
      find_request_by_id d g rid = Some r -> status r = PENDING ->
      let d' := snd (resolve false g rid accept d) in
      fst (resolve false g rid accept d) = Resolved ACCEPTED /\
      find_request_by_id d' g rid = Some (with_status ACCEPTED r) /\
      In (mkGroupMember g (userId r) MEMBER) (groupMembers d') /\
      is_member g (userId r) d = false /\
      resolve true g rid accept d = (InternalError, d) /\
      (forall store_rejects,
          let d'' := snd (resolve store_rejects g rid accept d) in
          is_member g (userId r) d'' = true <->
          exists r', find_request_by_id d'' g rid = Some r' /\
                     status r' = ACCEPTED)).
Proof.
  intros Hd. destruct (reachable_consistent d Hd) as [Hu Ha Hp].
  split; [exact Ha|].
  intros g rid r Hfind Hst.
  assert (Hnot : is_member g (userId r) d = false).
  { unfold find_request_by_id in Hfind.
    destruct (find_some _ _ Hfind) as [Hin Hkey].
    apply request_in_group_eq in Hkey as [_ <-]. now apply Hp. }
  assert (Hrej : resolve true g rid accept d = (InternalError, d))
    by (unfold resolve; now rewrite Hfind, Hst).
  assert (Hok : resolve false g rid accept d =
                (Resolved ACCEPTED,
                 mkDb (users d) (groups d)
                   (groupMembers d ++ [mkGroupMember g (userId r) MEMBER])%list
                   (update_first (request_in_group g rid)
                      (with_status ACCEPTED) (groupJoinRequests d))))
    by (unfold resolve; now rewrite Hfind, Hst, Hnot).
  assert (Hfind' :
            find (request_in_group g rid)
              (update_first (request_in_group g rid) (with_status ACCEPTED)
                 (groupJoinRequests d)) = Some (with_status ACCEPTED r)).
  { unfold find_request_by_id in Hfind.
    destruct (find_split (request_in_group g rid) (with_status ACCEPTED)
                _ _ Hfind) as (before & after & _ & Hb & ->).
    apply find_skip; [exact Hb|].
    apply find_some in Hfind as [_ Hkey]. exact Hkey. }
  cbv zeta. rewrite Hok. cbn [fst snd].
  assert (Hmem : is_member g (userId r)
                   (mkDb (users d) (groups d)
                      (groupMembers d ++ [mkGroupMember g (userId r) MEMBER])%list
                      (update_first (request_in_group g rid)
                         (with_status ACCEPTED) (groupJoinRequests d))) = true)
    by (rewrite is_member_added, !String.eqb_refl; apply orb_true_r).
  repeat split; trivial.
  - cbn [groupMembers]. apply in_or_app. right. now left.
  - destruct store_rejects; [rewrite Hrej | rewrite Hok]; cbn [snd].
    + rewrite Hnot. discriminate.
    + intros _. exists (with_status ACCEPTED r). split; [exact Hfind' | reflexivity].
  - destruct store_rejects; [rewrite Hrej | rewrite Hok]; cbn [snd].
    + intros (r' & Hr' & Hst'). rewrite Hfind in Hr'. congruence.
    + intros _. exact Hmem.
Qed.

Lemma resolve_accept_atomic_witness :
  let d := db (snd (create Scenario.env "BookClub" Scenario.world)) in
  reachable d /\
  fst (resolve false "BookClub" "request-1" accept d) = Resolved ACCEPTED /\
  In (mkGroupMember "BookClub" "bob" MEMBER)
     (groupMembers (snd (resolve false "BookClub" "request-1" accept d))) /\
  resolve true "BookClub" "request-1" accept d = (InternalError, d).
Proof.
  intro d.
  assert (Hd : reachable d).
  { apply reachable_step with (d := db Scenario.world); [|apply step_create].
    apply reachable_start. reflexivity. }
  pose proof (proj2 (resolve_accept_atomic d Hd) "BookClub" "request-1"
                (mkGroupJoinRequest "request-1" "BookClub" "bob" PENDING)
                eq_refl eq_refl)
    as (H1 & _ & H2 & _ & H3 & _).
  exact (conj Hd (conj H1 (conj H2 H3))).
Defined.

(** ** The displayed list *)

Lemma without_none requestId (l : list Client.JoinRequest) :
  (forall x, In x l -> Client.id x <> requestId) ->
  filter (fun req => negb (Client.id req =? requestId)) l = l.
Proof.
  induction l as [|x rest IH]; intros H; [reflexivity|]. simpl.
  destruct (Client.id x =? requestId) eqn:E.
  - apply String.eqb_eq in E. now destruct (H x (or_introl eq_refl)).
  - simpl. rewrite IH; [reflexivity|]. intros y Hy. apply H. now right.
Qed.

(** C8: after a successful response the callback leaves in the displayed
    list exactly the requests whose id is not the resolved one, in their
    order - with the resolved item at one place in the list, what is left is
    what stood before it followed by what stood after it; after a failed
    response, or when the call itself fails, the list is the one displayed
    before. *)
Theorem handleRequestAction_list requestId action s :
  (forall response, Client.ok response = true ->
     let s' := Client.handleRequestAction requestId action
                 (Client.FetchResolves response) s in
     (forall x, In x (Client.requests s') <->
                In x (Client.requests s) /\ Client.id x <> requestId) /\
     (forall before r after,
        Client.requests s = (before ++ r :: after)%list ->
        Client.id r = requestId ->
        (forall x, In x (before ++ after) -> Client.id x <> requestId) ->
        Client.requests s' = (before ++ after)%list)) /\
  (forall response, Client.ok response = false ->
     Client.requests
       (Client.handleRequestAction requestId action
          (Client.FetchResolves response) s) = Client.requests s) /\
  (forall t,
     Client.requests
       (Client.handleRequestAction requestId action (Client.FetchRejects t) s)
     = Client.requests s).
Proof.
  repeat apply conj.
  - intros response Hok. cbv zeta.
    unfold Client.handleRequestAction, Client.try_block. rewrite Hok.
    cbn [negb Client.setRequests_without Client.toast Client.requests].
    split.
    + intros x. rewrite filter_In, negb_true_iff, String.eqb_neq. tauto.
    + intros before r after Hrows Hr Hothers. rewrite Hrows, filter_app.
      simpl. rewrite Hr, String.eqb_refl. simpl.
      rewrite <- filter_app. now apply without_none.
  - intros response Hok.
    unfold Client.handleRequestAction, Client.try_block. rewrite Hok. simpl.
    now destruct (Client.json response).
  - intros t. reflexivity.
Qed.

Lemma handleRequestAction_list_witness :
  let u := Client.mkRequestUser "bob" (Some "Bob") None (Some "bob@x.com") in
  let a := Client.mkJoinRequest "request-1" u in
  let b := Client.mkJoinRequest "request-2" u in
  let c := Client.mkJoinRequest "request-3" u in
  let s := Client.mkState [a; b; c] false [] in
  Client.requests
    (Client.handleRequestAction "request-2" Client.accept
       (Client.FetchResolves (Client.mkFetchResponse true (Client.JsonObject None)))
       s) = [a; c] /\
  Client.requests
    (Client.handleRequestAction "request-2" Client.accept
       (Client.FetchResolves
          (Client.mkFetchResponse false
             (Client.JsonObject (Some "Invalid request."))))
       s) = [a; b; c].
Proof.
  intros u a b c s.
  destruct (handleRequestAction_list "request-2" Client.accept s)
    as (Hok & Hfailed & _).
  split.
  - apply (proj2 (Hok (Client.mkFetchResponse true (Client.JsonObject None))
                    eq_refl) [a] b [c]); try reflexivity.
    intros x [<- | [<- | []]]; discriminate.
  - apply (Hfailed (Client.mkFetchResponse false
                      (Client.JsonObject (Some "Invalid request.")))).
    reflexivity.
Defined.

(** * Further properties of the route handler *)

(** ** The handler always answers *)


(** ** The order of the checks *)

Lemma not_signed_in_unauthorized env g w :
  (~ exists requester, signed_in env requester) ->
  create env g w = (mkResponse "Unauthorized" 401, w).
Proof.
  intros Hno. unfold create, POST, respond.
  destruct (getSession env) as [[[requester|]]|] eqn:Hs; try reflexivity.
  destruct (Js.truthy (session_user_id requester)) eqn:Hid; [|reflexivity].
  destruct Hno. exists requester. now split.
Qed.

Lemma signed_in_unique env r1 r2 :
  signed_in env r1 -> signed_in env r2 -> r1 = r2.
Proof. intros [H1 _] [H2 _]. congruence. Qed.

(** X2: the session and the group id are checked before the store is
    touched. The answer is 401 exactly when the session carries no user id,
    and for a signed-in caller it is 400 "Group ID is required." exactly
    when the group id is empty; both leave the world as it was, also while
    every call on the store would reject. *)
Theorem create_validates_before_store env g w :
  (fst (create env g w) = mkResponse "Unauthorized" 401 <->
   ~ exists requester, signed_in env requester) /\
  ((~ exists requester, signed_in env requester) ->
   snd (create env g w) = w) /\
  (forall requester, signed_in env requester ->
     (fst (create env g w) = mkResponse "Group ID is required." 400 <->
      g = "") /\
     (g = "" -> snd (create env g w) = w)).
Proof.
  assert (Hauto : forall m : M Response,
             (exists r w', m w = (Return r, w') /\ http_status r <> 401
                           /\ message r <> "Group ID is required.") ->
             fst (respond m w) <> mkResponse "Unauthorized" 401 /\
             fst (respond m w) <> mkResponse "Group ID is required." 400).
  { intros m (r & w' & E & H1 & H2). unfold respond. rewrite E. cbn [fst].
    split; intros ->; [now apply H1 | now apply H2]. }
  assert (Hbody : forall requester,
             exists r w', POST_body env requester g w = (Return r, w')
                          /\ http_status r <> 401
                          /\ message r <> "Group ID is required.").
  { intros requester. rewrite POST_body_run. cbv zeta.
    repeat match goal with
           | |- context [if ?b then _ else _] => destruct b
           | |- context [match ?o with Some _ => _ | None => _ end] =>
             destruct o
           end;
      do 2 eexists; (split; [reflexivity | split; discriminate]). }
  split; [split|split].
  - intros H401 (requester & Hs & Hid).
    destruct (Js.truthy g) eqn:Hg.
    + rewrite (create_signed_in env requester g w (conj Hs Hid) Hg) in H401.
      destruct (Hauto _ (Hbody requester)) as [N _]. contradiction.
    + revert H401. unfold create, POST, respond. rewrite Hs, Hid, Hg.
      discriminate.
  - intros Hno. now rewrite not_signed_in_unauthorized.
  - intros Hno. now rewrite not_signed_in_unauthorized.
  - intros requester Hsigned. split.
    + split.
      * intros H400. destruct (Js.truthy g) eqn:Hg.
        -- rewrite (create_signed_in env requester g w Hsigned Hg) in H400.
           destruct (Hauto _ (Hbody requester)) as [_ N]. contradiction.
        -- destruct g; [reflexivity | discriminate Hg].
      * intros ->. destruct Hsigned as [Hs Hid].
        unfold create, POST, respond. now rewrite Hs, Hid.
    + intros ->. destruct Hsigned as [Hs Hid].
      unfold create, POST, respond. now rewrite Hs, Hid.
Qed.

Lemma find_group_missing d g :
  group_exists g d = false <-> find_group d g = None.
Proof.
  unfold group_exists, find_group.
  destruct (find (fun x => group_ident x =? g) (groups d)) as [x|] eqn:E.
  - split; [|discriminate]. intros H. apply find_some in E as [Hin Hx].
    assert (existsb (fun x => group_ident x =? g) (groups d) = true)
      by (apply existsb_exists; eauto).
    congruence.
  - split; [reflexivity | intros _].
    destruct (existsb _ (groups d)) eqn:X; [|reflexivity].
    apply existsb_exists in X as (x & Hin & Hx).
    apply (find_none _ _ E) in Hin. congruence.
Qed.

(** X3: for a signed-in caller with a group id, and while the lookup of the
    group does not reject, the answer is 404 "Group not found." exactly when
    the table of groups has no row with that id - whatever memberships or
    requests are stored under the id - and then nothing is written. *)
Theorem create_group_not_found env requester g w :
  signed_in env requester ->
  Js.truthy g = true ->
  prisma_rejects env GroupFindUnique = false ->
  (fst (create env g w) = mkResponse "Group not found." 404 <->
   group_exists g (db w) = false) /\
  (group_exists g (db w) = false -> snd (create env g w) = w).
Proof.
  intros Hs Hg Hf.
  rewrite (create_signed_in env requester g w Hs Hg). unfold respond.
  rewrite POST_body_run. cbv zeta. rewrite Hf.
  destruct (find_group (db w) g) as [group|] eqn:E.
  - assert (Hex : group_exists g (db w) = true).
    { destruct (group_exists g (db w)) eqn:X; [reflexivity|].
      apply find_group_missing in X. congruence. }
    rewrite Hex. split; [|discriminate]. split; [|discriminate].
    repeat match goal with
           | |- context [if ?b then _ else _] => destruct b
           | |- context [match ?o with Some _ => _ | None => _ end] =>
             destruct o
           end; discriminate.
  - apply find_group_missing in E. rewrite E. now repeat split.
Qed.


(** ** What a call leaves alone *)

Lemma rows_kept_same g rows : Forall2 (row_kept g) rows rows.
Proof.
  induction rows; constructor; auto. unfold row_kept. tauto.
Qed.

Lemma rows_kept_updated g u rows :
  Forall2 (row_kept g) rows
    (map (fun r => if same_request_key g u r then with_status PENDING r else r)
       rows).
Proof.
  induction rows as [|x rest IH]; simpl; constructor; auto.
  unfold row_kept. destruct (same_request_key g u x) eqn:K; simpl.
  - apply same_request_key_eq in K as [K _]. tauto.
  - tauto.
Qed.

(** X5: a call never touches the tables of users, groups and memberships,
    and never removes or reorders a request: the rows that were there are
    still there in their order, each with its id, group and user, and with
    its status, unless it is a row of the requested group that was set to
    PENDING; at most one row is added, at the end. *)
Theorem create_frame env g w :
  let d := db w in
  let d' := db (snd (create env g w)) in
  users d' = users d /\ groups d' = groups d /\
  groupMembers d' = groupMembers d /\
  exists kept added,
    groupJoinRequests d' = (kept ++ added)%list /\
    length added <= 1 /\
    Forall2 (row_kept g) (groupJoinRequests d) kept.
Proof.
  cbv zeta.
  destruct (create_outcomes env g w)
    as [[_ ->] | [-> | (requester & group & _ & _ & _ & _ & _ & ->)]].
  - repeat split. exists (groupJoinRequests (db w)), [].
    rewrite app_nil_r. repeat split; [simpl; lia | apply rows_kept_same].
  - cbn [snd after_internal_error db]. repeat split.
    exists (groupJoinRequests (db w)), [].
    rewrite app_nil_r. repeat split; [simpl; lia | apply rows_kept_same].
  - cbn [snd after_success db users groups groupMembers groupJoinRequests
           set_requests].
    repeat split. unfold upsert_request.
    destruct (existsb _ (groupJoinRequests (db w))).
    + eexists _, []. rewrite app_nil_r.
      repeat split; [simpl; lia | apply rows_kept_updated].
    + eexists _, [_]. repeat split; [simpl; lia | apply rows_kept_same].
Qed.

(** ** The two branches of the upsert *)

Lemma find_none_existsb {X} (p : X -> bool) rows :
  find p rows = None -> existsb p rows = false.
Proof.
  intros H. destruct (existsb p rows) eqn:E; [|reflexivity].
  apply existsb_exists in E as (x & Hin & Hx).
  apply (find_none _ _ H) in Hin. congruence.
Qed.

(** X6: the first request of a pair: when the table has no row for the
    group and the user, a successful call appends one row - the id the store
    generated, the group, the user, PENDING - and keeps all others. *)
Theorem create_first_request env requester g w :
  signed_in env requester ->
  Js.truthy g = true ->
  prisma_available env ->
  group_exists g (db w) = true ->
  is_member g (session_user_id requester) (db w) = false ->
  find_request (db w) g (session_user_id requester) = None ->
  fst (create env g w) = mkResponse "Join request sent successfully." 201 /\
  groupJoinRequests (db (snd (create env g w))) =
    (groupJoinRequests (db w) ++
     [mkGroupJoinRequest (generated_id env) g (session_user_id requester)
        PENDING])%list.
Proof.
  intros Hs Hg Hdb Hgroup Hmember Hfind.
  destruct (find_group_exists _ _ Hgroup) as [x Hx].
  rewrite (create_success env requester g w _ Hs Hg Hdb Hx Hmember)
    by now rewrite Hfind.
  cbn [fst snd after_success db groupJoinRequests set_requests].
  split; [reflexivity|]. unfold upsert_request, find_request in *.
  now rewrite (find_none_existsb _ _ Hfind).
Qed.

(** X7: the upsert reopens an ACCEPTED request as well: when the pair's row
    is ACCEPTED and the user holds no membership of the group, the call
    answers 201 and sets that row back to PENDING, adding none. *)
Theorem create_reopens_accepted env requester g w r :
  signed_in env requester ->
  Js.truthy g = true ->
  prisma_available env ->
  group_exists g (db w) = true ->
  is_member g (session_user_id requester) (db w) = false ->
  find_request (db w) g (session_user_id requester) = Some r ->
  status r = ACCEPTED ->
  fst (create env g w) = mkResponse "Join request sent successfully." 201 /\
  find_request (db (snd (create env g w))) g (session_user_id requester) =
    Some (with_status PENDING r) /\
  length (groupJoinRequests (db (snd (create env g w)))) =
    length (groupJoinRequests (db w)).
Proof.
  intros Hs Hg Hdb Hgroup Hmember Hfind Hacc.
  destruct (find_group_exists _ _ Hgroup) as [x Hx].
  rewrite (create_success env requester g w _ Hs Hg Hdb Hx Hmember)
    by (rewrite Hfind; simpl; now rewrite Hacc).
  cbn [fst snd after_success db groupJoinRequests set_requests].
  unfold find_request in *.
  cbn [groupJoinRequests set_requests].
  rewrite (upsert_request_update _ _ _ _ (find_existsb _ _ _ Hfind)).
  repeat split.
  - now apply find_updated.
  - apply length_map.
Qed.

(** ** Who is written to *)

Lemma admin_members_spec d g a :
  In a (admin_members d g) ->
  In (member_row a) (groupMembers d) /\
  group_id (member_row a) = g /\
  role (member_row a) = ADMIN /\
  In (user a) (users d) /\
  user_ident (user a) = user_id (member_row a).
Proof.
  unfold admin_members. rewrite in_flat_map.
  intros (m & Hm & Ha). apply filter_In in Hm as [Hin Hm].
  apply andb_true_iff in Hm as [Hgrp Hrole].
  apply String.eqb_eq in Hgrp.
  unfold include_user in Ha.
  destruct (find _ (users d)) as [u|] eqn:F; [|destruct Ha].
  destruct Ha as [<- | []]. simpl.
  apply find_some in F as [Hu Hid]. apply String.eqb_eq in Hid.
  repeat split; trivial. now destruct (role m).
Qed.

Lemma find_group_members d g group :
  find_group d g = Some group -> members group = admin_members d g.
Proof.
  unfold find_group. destruct (find _ (groups d)); [|discriminate].
  now intros [= <-].
Qed.

(** X8: a call only adds to the trace, and every e-mail it sends goes to a
    non-empty address that is the e-mail of a user holding role ADMIN in the
    requested group. *)
Theorem create_writes_to_group_admins env g w :
  exists added,
    trace (snd (create env g w)) = (trace w ++ added)%list /\
    forall from to subject,
      In (EmailSend from to subject) added ->
      to <> "" /\
      exists m u,
        In m (groupMembers (db w)) /\ group_id m = g /\ role m = ADMIN /\
        In u (users (db w)) /\ user_ident u = user_id m /\
        user_email u = Some to.
Proof.
  destruct (create_outcomes env g w)
    as [[_ ->] | [-> | (requester & group & _ & Hgroup & _ & _ & _ & ->)]].
  - exists []. rewrite app_nil_r. split; [reflexivity | intros ? ? ? []].
  - eexists. split; [reflexivity|]. intros ? ? ? [H | []]. discriminate H.
  - eexists. split; [reflexivity|]. intros from to subject Hin.
    apply in_flat_map in Hin as (a & Ha & Hev).
    rewrite (find_group_members _ _ _ Hgroup) in Ha.
    apply admin_members_spec in Ha as (Hm & Hg & Hrole & Hu & Hid).
    unfold notification_events, has_email in Hev.
    destruct (user_email (user a)) as [addr|] eqn:Hmail; [|destruct Hev].
    simpl in Hev. destruct (Js.truthy addr) eqn:Haddr; [|destruct Hev].
    assert (Hto : to = addr).
    { unfold render_call, send_call, failure_log in Hev. rewrite Hmail in Hev.
      simpl in Hev.
      destruct Hev as [H | Hev]; [discriminate H|].
      destruct (render_rejects env (user a)).
      - destruct Hev as [H | []]. discriminate H.
      - destruct Hev as [H | Hev]; [now inversion H|].
        destruct (send_rejects env (user a)); [|destruct Hev].
        destruct Hev as [H | []]. discriminate H. }
    subst to. split.
    + intros ->. discriminate Haddr.
    + exists (member_row a), (user a). repeat split; trivial.
Qed.

(** ** The further properties on the scenario *)

Lemma create_validates_before_store_witness :
  create Calls.env_anonymous "BookClub" Scenario.world =
    (mkResponse "Unauthorized" 401, Scenario.world) /\
  create Calls.env_store_down "" Scenario.world =
    (mkResponse "Group ID is required." 400, Scenario.world).
Proof.
  assert (Hno : ~ exists requester, signed_in Calls.env_anonymous requester)
    by (intros (requester & Hs & _); discriminate Hs).
  destruct (create_validates_before_store Calls.env_anonymous "BookClub"
              Scenario.world) as (H401 & Hw & _).
  destruct (create_validates_before_store Calls.env_store_down ""
              Scenario.world) as (_ & _ & H400).
  destruct (H400 Scenario.bob_session (conj eq_refl eq_refl)) as [Hr Hw'].
  split; apply injective_projections; cbn [fst snd].
  - now apply H401.
  - now apply Hw.
  - now apply Hr.
  - now apply Hw'.
Defined.

Lemma create_group_not_found_witness :
  create Scenario.env "Unknown" Scenario.world =
    (mkResponse "Group not found." 404, Scenario.world).
Proof.
  destruct (create_group_not_found Scenario.env Scenario.bob_session "Unknown"
              Scenario.world (conj eq_refl eq_refl) eq_refl eq_refl)
    as [Hr Hw].
  apply injective_projections; cbn [fst snd].
  - now apply Hr.
  - now apply Hw.
Defined.


Lemma create_first_request_witness :
  groupJoinRequests (db (snd (create Scenario.env "BookClub" Scenario.world)))
  = [mkGroupJoinRequest "request-1" "BookClub" "bob" PENDING].
Proof.
  exact (proj2 (create_first_request Scenario.env Scenario.bob_session
                  "BookClub" Scenario.world (conj eq_refl eq_refl) eq_refl
                  (fun c => eq_refl) eq_refl eq_refl eq_refl)).
Defined.

Lemma create_reopens_accepted_witness :
  find_request
    (db (snd (create Scenario.env_later "BookClub"
                (mkWorld (Scenario.with_request ACCEPTED) []))))
    "BookClub" "bob"
  = Some (mkGroupJoinRequest "request-1" "BookClub" "bob" PENDING).
Proof.
  exact (proj1 (proj2 (create_reopens_accepted
                         Scenario.env_later Scenario.bob_session "BookClub"
                         (mkWorld (Scenario.with_request ACCEPTED) [])
                         (mkGroupJoinRequest "request-1" "BookClub" "bob"
                            ACCEPTED)
                         (conj eq_refl eq_refl) eq_refl (fun c => eq_refl)
                         eq_refl eq_refl eq_refl eq_refl))).
Defined.

Lemma create_writes_to_group_admins_witness :
  In (EmailSend "Shelfy <noreply@shelfy.fr>" "alice@x.com"
        "Nouvelle demande pour rejoindre BookClub")
     (trace (snd (create Scenario.env "BookClub" Scenario.world))) /\
  exists m u,
    In m (groupMembers Scenario.store) /\ group_id m = "BookClub" /\
    role m = ADMIN /\ In u (users Scenario.store) /\
    user_ident u = user_id m /\ user_email u = Some "alice@x.com".
Proof.
  destruct (create_writes_to_group_admins Scenario.env "BookClub"
              Scenario.world) as (added & Htrace & Hsend).
  assert (Hin : In (EmailSend "Shelfy <noreply@shelfy.fr>" "alice@x.com"
                      "Nouvelle demande pour rejoindre BookClub")
                   (trace (snd (create Scenario.env "BookClub"
                                  Scenario.world))))
    by (right; left; reflexivity).
  split; [exact Hin|].
  rewrite Htrace in Hin. exact (proj2 (Hsend _ _ _ Hin)).
Defined.

(** * Further properties of the component *)

(** ** Loading the list *)

(** X9: [fetchRequests] always ends with [loading] off. A successful
    response replaces the list by the array received and shows no toast;
    when the call rejects, the response is not ok or its body cannot be
    read, the list is kept and one destructive toast is shown - for a
    response that is not ok always with the fixed text, whatever the body
    says. *)
Theorem fetchRequests_settles fetched s :
  Client.loading (Client.fetchRequests fetched s) = false /\
  (forall response data,
     fetched = Client.ListFetchResolves response ->
     Client.list_ok response = true ->
     Client.list_json response = Client.ListJson data ->
     Client.requests (Client.fetchRequests fetched s) = data /\
     Client.toasts (Client.fetchRequests fetched s) = Client.toasts s) /\
  (forall response,
     fetched = Client.ListFetchResolves response ->
     Client.list_ok response = false ->
     Client.requests (Client.fetchRequests fetched s) = Client.requests s /\
     Client.toasts (Client.fetchRequests fetched s) =
       (Client.toasts s ++
        [Client.mkToast "Erreur" "Failed to fetch join requests."
           (Some "destructive")])%list) /\
  (forall t,
     (fetched = Client.ListFetchRejects t \/
      exists response,
        fetched = Client.ListFetchResolves response /\
        Client.list_ok response = true /\
        Client.list_json response = Client.ListJsonRejects t) ->
     Client.requests (Client.fetchRequests fetched s) = Client.requests s /\
     Client.toasts (Client.fetchRequests fetched s) =
       (Client.toasts s ++
        [Client.mkToast "Erreur" (Client.errorMessage t)
           (Some "destructive")])%list).
Proof.
  repeat apply conj.
  - unfold Client.fetchRequests. reflexivity.
  - intros response data -> Hok Hjson.
    unfold Client.fetchRequests, Client.fetchRequests_try.
    now rewrite Hok, Hjson.
  - intros response -> Hok.
    unfold Client.fetchRequests, Client.fetchRequests_try.
    now rewrite Hok.
  - intros t [-> | (response & -> & Hok & Hjson)];
      unfold Client.fetchRequests, Client.fetchRequests_try;
      [|rewrite Hok, Hjson]; now split.
Qed.

Lemma fetchRequests_settles_witness :
  let u := Client.mkRequestUser "bob" (Some "Bob") None (Some "bob@x.com") in
  let a := Client.mkJoinRequest "request-1" u in
  let s := Client.mkState [a] true [] in
  Client.requests
    (Client.fetchRequests
       (Client.ListFetchResolves
          (Client.mkListResponse true (Client.ListJson []))) s) = [] /\
  Client.requests
    (Client.fetchRequests
       (Client.ListFetchResolves
          (Client.mkListResponse false (Client.ListJson []))) s) = [a] /\
  Client.toasts
    (Client.fetchRequests (Client.ListFetchRejects Client.OtherValue) s) =
    [Client.mkToast "Erreur" "Une erreur inconnue est survenue."
       (Some "destructive")].
Proof.
  intros u a s. repeat apply conj.
  - exact (proj1 (proj1 (proj2 (fetchRequests_settles
                                  (Client.ListFetchResolves
                                     (Client.mkListResponse true
                                        (Client.ListJson []))) s))
                    (Client.mkListResponse true (Client.ListJson [])) []
                    eq_refl eq_refl eq_refl)).
  - exact (proj1 (proj1 (proj2 (proj2 (fetchRequests_settles
                                         (Client.ListFetchResolves
                                            (Client.mkListResponse false
                                               (Client.ListJson []))) s)))
                    (Client.mkListResponse false (Client.ListJson []))
                    eq_refl eq_refl)).
  - exact (proj2 (proj2 (proj2 (proj2 (fetchRequests_settles
                                         (Client.ListFetchRejects
                                            Client.OtherValue) s)))
                    Client.OtherValue (or_introl eq_refl))).
Defined.

(** ** What the user is told *)

(** X10: [handleRequestAction] never touches [loading] and shows exactly
    one toast: a plain one titled "Succès" after an ok response, a
    destructive one titled "Erreur" otherwise - with the message of the
    response when it has one, and with "Failed to accept request." or
    "Failed to decline request." when the message is missing or empty. *)
Theorem handleRequestAction_feedback requestId action fetched s :
  let s' := Client.handleRequestAction requestId action fetched s in
  Client.loading s' = Client.loading s /\
  exists t,
    Client.toasts s' = (Client.toasts s ++ [t])%list /\
    (forall response,
       fetched = Client.FetchResolves response ->
       Client.ok response = true ->
       Client.title t = "Succès" /\ Client.variant t = None) /\
    ((~ exists response,
          fetched = Client.FetchResolves response /\
          Client.ok response = true) ->
     Client.title t = "Erreur" /\ Client.variant t = Some "destructive") /\
    (forall response m,
       fetched = Client.FetchResolves response ->
       Client.ok response = false ->
       Client.json response = Client.JsonObject m ->
       Client.description t =
         match m with
         | Some text =>
           if Js.truthy text then text
           else "Failed to " ++ Client.action_text action ++ " request."
         | None => "Failed to " ++ Client.action_text action ++ " request."
         end).
Proof.
  cbv zeta. unfold Client.handleRequestAction, Client.try_block.
  destruct fetched as [response | t].
  - destruct (Client.ok response) eqn:Hok; cbn [negb].
    + split; [reflexivity|]. eexists. split; [reflexivity|].
      split; [now intros r [= <-] |]. split.
      * intros Hno. destruct Hno. eauto.
      * intros r m [= <-]. congruence.
    + destruct (Client.json response) as [t | m] eqn:Hjson;
        (split; [reflexivity|]); eexists; (split; [reflexivity|]);
        (split; [intros r [= <-]; congruence |]);
        (split; [intros _; now split |]);
        intros r m' [= <-] _; rewrite Hjson; [discriminate|].
      intros [= <-]. reflexivity.
  - split; [reflexivity|]. eexists. split; [reflexivity|].
    split; [discriminate|]. split; [intros _; now split | discriminate].
Qed.

Lemma handleRequestAction_feedback_witness :
  let s := Client.mkState [] false [] in
  exists t,
    Client.toasts
      (Client.handleRequestAction "request-1" Client.decline
         (Client.FetchResolves
            (Client.mkFetchResponse false (Client.JsonObject (Some ""))))
         s) = [t] /\
    Client.title t = "Erreur" /\
    Client.description t = "Failed to decline request.".
Proof.
  intro s.
  destruct (handleRequestAction_feedback "request-1" Client.decline
              (Client.FetchResolves
                 (Client.mkFetchResponse false (Client.JsonObject (Some ""))))
              s) as (_ & t & Ht & _ & Hfail & Htext).
  exists t. split; [exact Ht|]. split.
  - apply Hfail. intros (r & [= <-] & Hok). discriminate Hok.
  - exact (Htext _ (Some "") eq_refl eq_refl eq_refl).
Defined.

(** ** Several resolutions *)

Lemma requests_after_ok requestId action response s :
  Client.ok response = true ->
  Client.requests
    (Client.handleRequestAction requestId action
       (Client.FetchResolves response) s) =
  filter (fun req => negb (Client.id req =? requestId)) (Client.requests s).
Proof.
  intros Hok. unfold Client.handleRequestAction, Client.try_block.
  now rewrite Hok.
Qed.

Lemma filter_comm {X} (p q : X -> bool) l :
  filter p (filter q l) = filter q (filter p l).
Proof.
  induction l as [|x rest IH]; [reflexivity|]. simpl.
  destruct (p x) eqn:P, (q x) eqn:Q; simpl; rewrite ?P, ?Q, IH; reflexivity.
Qed.

Lemma filter_idem {X} (p : X -> bool) l :
  filter p (filter p l) = filter p l.
Proof.
  induction l as [|x rest IH]; [reflexivity|]. simpl.
  destruct (p x) eqn:P; simpl; rewrite ?P, IH; reflexivity.
Qed.

(** X11: successful resolutions can be handled in any order and more than
    once: the list left by two of them does not depend on which one is
    handled first, and handling the same one again changes nothing in the
    list. *)
Theorem handleRequestAction_order id1 action1 response1 id2 action2 response2 s :
  Client.ok response1 = true ->
  Client.ok response2 = true ->
  let first := fun s => Client.handleRequestAction id1 action1
                          (Client.FetchResolves response1) s in
  let second := fun s => Client.handleRequestAction id2 action2
                           (Client.FetchResolves response2) s in
  Client.requests (second (first s)) = Client.requests (first (second s)) /\
  Client.requests (first (first s)) = Client.requests (first s).
Proof.
  intros Hok1 Hok2. cbv zeta.
  rewrite !requests_after_ok by assumption. split.
  - apply filter_comm.
  - apply filter_idem.
Qed.

Lemma handleRequestAction_order_witness :
  let u := Client.mkRequestUser "bob" (Some "Bob") None (Some "bob@x.com") in
  let a := Client.mkJoinRequest "request-1" u in
  let b := Client.mkJoinRequest "request-2" u in
  let c := Client.mkJoinRequest "request-3" u in
  let s := Client.mkState [a; b; c] false [] in
  let done := Client.FetchResolves
                (Client.mkFetchResponse true (Client.JsonObject None)) in
  Client.requests
    (Client.handleRequestAction "request-3" Client.decline done
       (Client.handleRequestAction "request-1" Client.accept done s)) =
  Client.requests
    (Client.handleRequestAction "request-1" Client.accept done
       (Client.handleRequestAction "request-3" Client.decline done s)).
Proof.
  intros u a b c s done.
  exact (proj1 (handleRequestAction_order
                  "request-1" Client.accept
                  (Client.mkFetchResponse true (Client.JsonObject None))
                  "request-3" Client.decline
                  (Client.mkFetchResponse true (Client.JsonObject None))
                  s eq_refl eq_refl)).
Defined.

(** ** What is shown *)




(** * Properties of the library page *)

(** ** The address of the list *)




(** ** The filters *)

(** X14: the archive filter becomes a flag of the call only for its two
    proper values: "archived" asks for the archived books, "non_archived"
    for the others, and every other name - "all" or one the table does not
    have - leaves the flag undefined, so that with it the address carries
    no archive parameter. *)
Theorem selectedArchiveStatus_cases filterArchiveStatus :
  (Library.selectedArchiveStatus filterArchiveStatus = Some true <->
   filterArchiveStatus = "archived") /\
  (Library.selectedArchiveStatus filterArchiveStatus = Some false <->
   filterArchiveStatus = "non_archived") /\
  (filterArchiveStatus <> "archived" ->
   filterArchiveStatus <> "non_archived" ->
   forall statusFilter,
     Library.library_url statusFilter
       (Library.selectedArchiveStatus filterArchiveStatus) =
     Library.library_url statusFilter None).
Proof.
  unfold Library.selectedArchiveStatus, Library.ARCHIVE_STATUSES.
  cbn [find Library.archive_name].
  rewrite (String.eqb_sym "all"), (String.eqb_sym "non_archived"),
    (String.eqb_sym "archived").
  destruct (String.eqb_spec filterArchiveStatus "all") as [-> | Hall];
    [repeat split; try discriminate; reflexivity|].
  destruct (String.eqb_spec filterArchiveStatus "non_archived")
    as [-> | Hnon].
  - cbn [Library.queryValue]. repeat split; try discriminate; trivial.
    intros _ H. now destruct H.
  - destruct (String.eqb_spec filterArchiveStatus "archived") as [-> | Harc].
    + cbn [Library.queryValue]. repeat split; try discriminate; trivial.
      intros H. now destruct H.
    + repeat split; try discriminate; try contradiction; reflexivity.
Qed.

Lemma selectedArchiveStatus_cases_witness :
  Library.library_url (Some "reading")
    (Library.selectedArchiveStatus "everything") =
  "/api/library?status=reading".
Proof.
  assert (H1 : "everything" <> "archived") by discriminate.
  assert (H2 : "everything" <> "non_archived") by discriminate.
  rewrite (proj2 (proj2 (selectedArchiveStatus_cases "everything")) H1 H2
             (Some "reading")).
  reflexivity.
Defined.

(** ** The status on a card *)

(** X15: a card always names one of the three reading statuses: status 1
    reads "À lire" on blue, status 2 "En cours" on yellow, and every other
    number - 3 as well as 0 or a negative one - reads "Terminé" on green;
    the fallbacks "Inconnu" and gray are never shown. *)
Theorem status_shown userBook :
  (Library.status_id userBook = 1%Z ->
   Library.status_label userBook = "À lire" /\
   Library.status_color userBook = "bg-blue-500") /\
  (Library.status_id userBook = 2%Z ->
   Library.status_label userBook = "En cours" /\
   Library.status_color userBook = "bg-yellow-500") /\
  (Library.status_id userBook <> 1%Z -> Library.status_id userBook <> 2%Z ->
   Library.status_label userBook = "Terminé" /\
   Library.status_color userBook = "bg-green-500") /\
  Library.status_label userBook <> "Inconnu" /\
  Library.status_color userBook <> "bg-gray-400".
Proof.
  unfold Library.status_label, Library.status_color, Library.shown_status,
    Library.status_name.
  destruct (Z.eqb_spec (Library.status_id userBook) 1) as [E1 | N1];
    [|destruct (Z.eqb_spec (Library.status_id userBook) 2) as [E2 | N2]];
    repeat split;
    try reflexivity; try contradiction; try congruence;
    intros H; discriminate H.
Qed.

Lemma status_shown_witness :
  Library.status_label
    (Library.mkBook "b1" 0%Z None None None None None
       (Library.mkBookInfo "i1" "Dune" None None None None None))
  = "Terminé".
Proof.
  refine (proj1 (proj1 (proj2 (proj2 (status_shown _))) _ _));
    simpl; discriminate.
Defined.

(** ** The dialogs *)

(** X16: the two dialogs are independent and opening is undone by closing:
    an opened dialog is open on the given book, opening or closing one
    leaves the other as it is, closing after opening is closing, closing
    twice is closing once, and opening then closing a dialog that was
    closed and empty gives back the dialogs as they were. *)
Theorem modals_open_close type id m :
  Library.modal_of type (Library.openModal type id m) =
    Library.mkModal true (Some id) /\
  Library.modal_of type (Library.closeModal type m) =
    Library.mkModal false None /\
  (forall other, other <> type ->
     Library.modal_of other (Library.openModal type id m) =
       Library.modal_of other m /\
     Library.modal_of other (Library.closeModal type m) =
       Library.modal_of other m) /\
  Library.closeModal type (Library.openModal type id m) =
    Library.closeModal type m /\
  Library.closeModal type (Library.closeModal type m) =
    Library.closeModal type m /\
  (Library.modal_of type m = Library.mkModal false None ->
   Library.closeModal type (Library.openModal type id m) = m).
Proof.
  destruct type, m as [d a]; simpl;
    (split; [reflexivity|]); (split; [reflexivity|]);
    (split; [intros [] H; try contradiction; now split |]);
    (split; [reflexivity|]); (split; [reflexivity|]);
    intros ->; reflexivity.
Qed.

Lemma modals_open_close_witness :
  let closed := Library.mkModals (Library.mkModal false None)
                  (Library.mkModal false None) in
  Library.closeModal Library.delete
    (Library.openModal Library.delete "b1" closed) = closed /\
  Library.modal_of Library.archive
    (Library.openModal Library.delete "b1" closed) =
  Library.mkModal false None.
Proof.
  intro closed.
  destruct (modals_open_close Library.delete "b1" closed)
    as (_ & _ & Hother & _ & _ & Hback).
  split.
  - exact (Hback eq_refl).
  - refine (proj1 (Hother Library.archive _)). discriminate.
Defined.

(** ** Loading the books *)

Lemma fetchBooks_run net user_id statusFilter archivedFilter s :
  Js.truthy_opt user_id = true ->
  Library.fetchBooks net user_id statusFilter archivedFilter s =
  let request := Library.mkRequest Library.GET
                   (Library.library_url statusFilter archivedFilter)
                   Library.NoBody in
  match Library.parsed Library.http_error (net request) with
  | inl v =>
    Library.mkState (Library.data v) false None (Library.filterStatus s)
      (Library.filterArchiveStatus s) (Library.modals s) (Library.toasts s)
      (Library.calls s ++ [request])
  | inr e =>
    Library.mkState (Library.books s) false (Library.message_of e)
      (Library.filterStatus s) (Library.filterArchiveStatus s)
      (Library.modals s) (Library.toasts s ++ [Library.error_toast e])
      (Library.calls s ++ [request])
  end.
Proof.
  intros Hu. unfold Library.fetchBooks. rewrite Hu. cbn [negb]. cbv zeta.
  now destruct (Library.parsed _ _).
Qed.

(** X17: without a signed-in user [fetchBooks] does nothing at all. With
    one it makes exactly one call, a GET of the address of the list, and
    ends with [loading] off: an ok response with a readable body replaces
    the books and clears the error; a response that is not ok keeps the
    books, sets the error to the message of its body - or to "HTTP error!
    status: " and the status when the body has none - and shows it in one
    destructive toast; a rejected call keeps the books too. *)
Theorem fetchBooks_outcome net user_id statusFilter archivedFilter s :
  (Js.truthy_opt user_id = false ->
   Library.fetchBooks net user_id statusFilter archivedFilter s = s) /\
  (Js.truthy_opt user_id = true ->
   let request := Library.mkRequest Library.GET
                    (Library.library_url statusFilter archivedFilter)
                    Library.NoBody in
   let s' := Library.fetchBooks net user_id statusFilter archivedFilter s in
   Library.loading s' = false /\
   Library.calls s' = (Library.calls s ++ [request])%list /\
   (forall response v,
      net request = Library.FetchResolves response ->
      Library.ok response = true ->
      Library.json response = Library.JsonResolves v ->
      Library.books s' = Library.data v /\ Library.error s' = None /\
      Library.toasts s' = Library.toasts s) /\
   (forall response errorData,
      net request = Library.FetchResolves response ->
      Library.ok response = false ->
      Library.json response = Library.JsonResolves errorData ->
      let text :=
        Js.or_else (Library.message errorData)
          ("HTTP error! status: "
           ++ NilEmpty.string_of_uint (Nat.to_uint (Library.status response)))
      in
      Library.books s' = Library.books s /\ Library.error s' = Some text /\
      Library.toasts s' =
        (Library.toasts s ++
         [Library.mkToast "Erreur" (Some text) (Some "destructive")])%list) /\
   (forall t,
      net request = Library.FetchRejects t ->
      Library.books s' = Library.books s /\
      Library.error s' = Library.message_of t)).
Proof.
  split.
  - intros Hu. unfold Library.fetchBooks. now rewrite Hu.
  - intros Hu. cbv zeta. rewrite fetchBooks_run by assumption. cbv zeta.
    unfold Library.parsed, Library.checked.
    destruct (net _) as [response | t] eqn:Hnet.
    + destruct (Library.ok response) eqn:Hok; cbn [negb];
        destruct (Library.json response) as [t | v] eqn:Hjson;
        (split; [reflexivity|]); (split; [reflexivity|]);
        (split; [|split]);
        try (intros r x [= <-] H1 H2; rewrite ?Hok, ?Hjson in *;
             try discriminate; injection H2 as <-; now repeat split);
        discriminate.
    + (split; [reflexivity|]); (split; [reflexivity|]); (split; [|split]);
        try discriminate.
      intros t' [= <-]. now split.
Qed.

Lemma fetchBooks_frame net user_id statusFilter archivedFilter s :
  let s' := Library.fetchBooks net user_id statusFilter archivedFilter s in
  Library.filterStatus s' = Library.filterStatus s /\
  Library.filterArchiveStatus s' = Library.filterArchiveStatus s /\
  Library.modals s' = Library.modals s /\
  (exists shown, Library.toasts s' = (Library.toasts s ++ shown)%list /\
                 length shown <= 1) /\
  (exists made, Library.calls s' = (Library.calls s ++ made)%list /\
                length made <= 1).
Proof.
  assert (Hsame : forall X (l : list X),
             exists added, l = (l ++ added)%list /\ length added <= 1)
    by (intros X l; exists []; split; [now rewrite app_nil_r | simpl; lia]).
  cbv zeta. destruct (Js.truthy_opt user_id) eqn:Hu.
  - rewrite fetchBooks_run by assumption. cbv zeta.
    destruct (Library.parsed _ _); cbn; repeat split; trivial;
      eexists; (split; [reflexivity | simpl; lia]).
  - unfold Library.fetchBooks. rewrite Hu. cbn [negb]. repeat split; trivial.
Qed.

(** ** Deleting, archiving and changing the status *)


Lemma checked_ok fallback fetched response :
  fetched = Library.FetchResolves response -> Library.ok response = true ->
  Library.checked fallback fetched = inl response.
Proof. intros -> Hok. unfold Library.checked. now rewrite Hok. Qed.


(** X19: the call [handleArchiveBook] makes agrees with what the dialog
    asked: it sends the opposite of the state [getArchiveBookInfo] reports
    for the book of the dialog. That state is "archived" only for a book of
    the list whose flag is set; a book without the flag, or one that is not
    in the list, is sent to the archive. After an ok response the toast
    names the change that was sent. *)
Theorem handleArchiveBook_toggles net user_id s bookId :
  Library.bookId (Library.archive_modal (Library.modals s)) = Some bookId ->
  bookId <> "" ->
  let archived := Library.getArchiveBookInfo s in
  let request := Library.mkRequest Library.PUT ("/api/library/" ++ bookId)
                   (Library.ArchiveBody (negb archived)) in
  let s' := Library.handleArchiveBook net user_id s in
  (archived = true <->
   exists b, find (fun b => Library.id b =? bookId) (Library.books s) = Some b
             /\ Library.is_archived b = Some true) /\
  (exists more, Library.calls s' = (Library.calls s ++ request :: more)%list) /\
  (forall response,
     net request = Library.FetchResolves response ->
     Library.ok response = true ->
     exists shown,
       Library.toasts s' =
         (Library.toasts s ++
          Library.mkToast "Succès"
            (Some (if archived then "Livre désarchivé avec succès."
                   else "Livre archivé avec succès.")) None :: shown)%list).
Proof.
  intros Hid Hne. cbv zeta.
  assert (Ht : Js.truthy bookId = true)
    by (destruct bookId; [contradiction | reflexivity]).
  assert (Hinfo : Library.getArchiveBookInfo s =
                  negb (Library.newArchiveStatus bookId s)).
  { unfold Library.getArchiveBookInfo, Library.newArchiveStatus.
    rewrite Hid, Ht. cbn [negb]. now rewrite negb_involutive. }
  assert (Hnew : Library.newArchiveStatus bookId s =
                 negb (Library.getArchiveBookInfo s))
    by (rewrite Hinfo; now rewrite negb_involutive).
  split; [|split].
  - unfold Library.getArchiveBookInfo. rewrite Hid, Ht. cbn [negb].
    destruct (find _ (Library.books s)) as [b|].
    + unfold Library.isCurrentlyArchived. split.
      * intros H. exists b. split; [reflexivity|].
        destruct (Library.is_archived b) as [[|]|]; congruence.
      * intros (b' & [= <-] & ->). reflexivity.
    + split; [discriminate | intros (b & H & _); discriminate].
  - unfold Library.handleArchiveBook. rewrite Hid, Ht. cbn [negb]. cbv zeta.
    rewrite Hnew.
    destruct (Library.checked _ _) as [response | e].
    + unfold Library.reload.
      match goal with
      | |- context [Library.fetchBooks _ _ ?a ?b ?s0] =>
        destruct (fetchBooks_frame net user_id a b s0)
          as (_ & _ & _ & _ & made & -> & _)
      end.
      cbn. rewrite <- app_assoc. eexists. reflexivity.
    + cbn. exists []. reflexivity.
  - intros response Hnet Hok.
    unfold Library.handleArchiveBook. rewrite Hid, Ht. cbn [negb]. cbv zeta.
    rewrite Hnew, (checked_ok _ _ _ Hnet Hok).
    unfold Library.reload.
    match goal with
    | |- context [Library.fetchBooks _ _ ?a ?b ?s0] =>
      destruct (fetchBooks_frame net user_id a b s0)
        as (_ & _ & _ & (shown & -> & _) & _)
    end.
    cbn. rewrite <- app_assoc.
    destruct (Library.getArchiveBookInfo s); eexists; reflexivity.
Qed.

Lemma badge_toasts badges : forall s,
  fold_left (fun s badge => Library.toast (Library.badge_toast badge) s)
    badges s =
  Library.mkState (Library.books s) (Library.loading s) (Library.error s)
    (Library.filterStatus s) (Library.filterArchiveStatus s)
    (Library.modals s)
    (Library.toasts s ++ map Library.badge_toast badges)
    (Library.calls s).
Proof.
  induction badges as [|badge rest IH]; intros s; simpl.
  - rewrite app_nil_r. now destruct s.
  - rewrite IH. cbn. now rewrite <- app_assoc.
Qed.

(** X20: [handleStatusChange] first calls PATCH on the status of the book
    with the new status. After an ok response it shows one toast for each
    badge the response awards, in their order - none when the response
    names no badges - before it asks for the list again; after a response
    that is not ok it makes no other call, keeps the books and shows the
    message of the response, or "Failed to update book status." when it has
    none. *)
Theorem handleStatusChange_outcome net user_id bookId newStatus s :
  let request := Library.mkRequest Library.PATCH
                   ("/api/library/" ++ bookId ++ "/status")
                   (Library.StatusBody newStatus) in
  let s' := Library.handleStatusChange net user_id bookId newStatus s in
  (exists more, Library.calls s' = (Library.calls s ++ request :: more)%list
                /\ length more <= 1) /\
  (forall response v,
     net request = Library.FetchResolves response ->
     Library.ok response = true ->
     Library.json response = Library.JsonResolves v ->
     exists shown,
       Library.toasts s' =
         (Library.toasts s ++
          map Library.badge_toast
            (match Library.awardedBadges v with
             | Some badges => badges
             | None => []
             end) ++ shown)%list /\
       length shown <= 1) /\
  (forall response errorData,
     net request = Library.FetchResolves response ->
     Library.ok response = false ->
     Library.json response = Library.JsonResolves errorData ->
     Library.calls s' = (Library.calls s ++ [request])%list /\
     Library.books s' = Library.books s /\
     Library.toasts s' =
       (Library.toasts s ++
        [Library.mkToast "Erreur"
           (Some (Js.or_else (Library.message errorData)
                    "Failed to update book status."))
           (Some "destructive")])%list).
Proof.
  cbv zeta. unfold Library.handleStatusChange. cbv zeta.
  set (request := Library.mkRequest Library.PATCH _ _).
  assert (Hreload : forall s0,
             (exists more,
                 Library.calls (Library.reload net user_id s0) =
                   (Library.calls s0 ++ more)%list /\ length more <= 1) /\
             (exists shown,
                 Library.toasts (Library.reload net user_id s0) =
                   (Library.toasts s0 ++ shown)%list /\ length shown <= 1)).
  { intros s0. unfold Library.reload.
    destruct (fetchBooks_frame net user_id (Some (Library.filterStatus s0))
                (Library.selectedArchiveStatus
                   (Library.filterArchiveStatus s0)) s0)
      as (_ & _ & _ & Ht & Hc).
    split; assumption. }
  split; [|split].
  - destruct (Library.parsed _ (net request)) as [v | e].
    + match goal with
      | |- context [Library.reload net user_id ?s0] =>
        destruct (proj1 (Hreload s0)) as (more & -> & Hlen)
      end.
      exists more. split; [|exact Hlen].
      destruct (Library.awardedBadges v); [rewrite badge_toasts|]; cbn;
        now rewrite <- app_assoc.
    + exists []. split; [reflexivity | simpl; lia].
  - intros response v Hnet Hok Hjson.
    unfold Library.parsed. rewrite (checked_ok _ _ _ Hnet Hok), Hjson.
    match goal with
    | |- context [Library.reload net user_id ?s0] =>
      destruct (proj2 (Hreload s0)) as (shown & -> & Hlen)
    end.
    exists shown. split; [|exact Hlen].
    destruct (Library.awardedBadges v); [rewrite badge_toasts|]; cbn;
      now rewrite <- ?app_assoc.
  - intros response errorData Hnet Hok Hjson.
    unfold Library.parsed, Library.checked. rewrite Hnet, Hok, Hjson.
    cbn. now repeat split.
Qed.

(** X21: none of [fetchBooks], [handleDeleteBook], [handleArchiveBook] and
    [handleStatusChange] changes the two filters or the dialogs - a
    confirmed dialog is not closed by its handler - and each of them only
    adds to the toasts shown. *)
Theorem handlers_keep_filters_and_dialogs net user_id bookId newStatus
    statusFilter archivedFilter s s' :
  In s' [Library.fetchBooks net user_id statusFilter archivedFilter s;
         Library.handleDeleteBook net user_id s;
         Library.handleArchiveBook net user_id s;
         Library.handleStatusChange net user_id bookId newStatus s] ->
  Library.filterStatus s' = Library.filterStatus s /\
  Library.filterArchiveStatus s' = Library.filterArchiveStatus s /\
  Library.modals s' = Library.modals s /\
  exists shown, Library.toasts s' = (Library.toasts s ++ shown)%list.
Proof.
  assert (Hfetch : forall a b s0,
             let s1 := Library.fetchBooks net user_id a b s0 in
             Library.filterStatus s1 = Library.filterStatus s0 /\
             Library.filterArchiveStatus s1 = Library.filterArchiveStatus s0 /\
             Library.modals s1 = Library.modals s0 /\
             exists shown,
               Library.toasts s1 = (Library.toasts s0 ++ shown)%list).
  { intros a b s0.
    destruct (fetchBooks_frame net user_id a b s0)
      as (H1 & H2 & H3 & (shown & H4 & _) & _).
    repeat split; trivial. eauto. }
  assert (Hsame : Library.filterStatus s = Library.filterStatus s /\
                  Library.filterArchiveStatus s = Library.filterArchiveStatus s
                  /\ Library.modals s = Library.modals s /\
                  exists shown,
                    Library.toasts s = (Library.toasts s ++ shown)%list)
    by (repeat split; exists []; now rewrite app_nil_r).
  assert (Hreload : forall t s0,
             Library.filterStatus s0 = Library.filterStatus s ->
             Library.filterArchiveStatus s0 = Library.filterArchiveStatus s ->
             Library.modals s0 = Library.modals s ->
             Library.toasts s0 = (Library.toasts s ++ t)%list ->
             let s1 := Library.reload net user_id s0 in
             Library.filterStatus s1 = Library.filterStatus s /\
             Library.filterArchiveStatus s1 = Library.filterArchiveStatus s /\
             Library.modals s1 = Library.modals s /\
             exists shown,
               Library.toasts s1 = (Library.toasts s ++ shown)%list).
  { intros t s0 E1 E2 E3 E4. unfold Library.reload.
    destruct (Hfetch (Some (Library.filterStatus s0))
                (Library.selectedArchiveStatus
                   (Library.filterArchiveStatus s0)) s0)
      as (F1 & F2 & F3 & shown & F4).
    cbv zeta. rewrite F1, F2, F3, F4, E1, E2, E3, E4.
    repeat split. rewrite <- app_assoc. eauto. }
  intros [<- | [<- | [<- | [<- | []]]]].
  - apply Hfetch.
  - unfold Library.handleDeleteBook.
    destruct (Library.bookId _) as [b|]; [|exact Hsame].
    destruct (Js.truthy b); cbn [negb]; [|exact Hsame]. cbv zeta.
    destruct (Library.checked _ _).
    + eapply Hreload; reflexivity.
    + cbn. repeat split. eauto.
  - unfold Library.handleArchiveBook.
    destruct (Library.bookId _) as [b|]; [|exact Hsame].
    destruct (Js.truthy b); cbn [negb]; [|exact Hsame]. cbv zeta.
    destruct (Library.checked _ _).
    + eapply Hreload; reflexivity.
    + cbn. repeat split. eauto.
  - unfold Library.handleStatusChange. cbv zeta.
    destruct (Library.parsed _ _) as [v | e].
    + destruct (Library.awardedBadges v) as [badges|].
      * rewrite badge_toasts. eapply Hreload; reflexivity.
      * eapply Hreload; try reflexivity. cbn. now rewrite app_nil_r.
    + cbn. repeat split. eauto.
Qed.

(** ** The page on a small shelf *)

Lemma library_url_of_page :
  Library.library_url (Some "all") (Library.selectedArchiveStatus "all") =
    "/api/library" /\
  Library.library_url (Some "reading")
    (Library.selectedArchiveStatus "archived") =
    "/api/library?status=reading&archived=true".
Proof. split; reflexivity. Qed.

Lemma fetchBooks_outcome_witness :
  Library.fetchBooks Shelf.refusing None (Some "all") None Shelf.page =
    Shelf.page /\
  Library.error
    (Library.fetchBooks Shelf.refusing (Some "u1") (Some "all") None
       Shelf.page) = Some "HTTP error! status: 403" /\
  Library.books
    (Library.fetchBooks Shelf.accepting (Some "u1") (Some "all") None
       Shelf.page) = [Shelf.emma].
Proof.
  destruct (fetchBooks_outcome Shelf.refusing None (Some "all") None
              Shelf.page) as [Hout _].
  destruct (fetchBooks_outcome Shelf.refusing (Some "u1") (Some "all") None
              Shelf.page) as [_ Hin].
  destruct (Hin eq_refl) as (_ & _ & _ & Hrefused & _).
  destruct (fetchBooks_outcome Shelf.accepting (Some "u1") (Some "all") None
              Shelf.page) as [_ Hin'].
  destruct (Hin' eq_refl) as (_ & _ & Haccepted & _).
  split; [exact (Hout eq_refl)|]. split.
  - exact (proj1 (proj2 (Hrefused _ _ eq_refl eq_refl eq_refl))).
  - exact (proj1 (Haccepted _ _ eq_refl eq_refl eq_refl)).
Defined.


Lemma handleArchiveBook_toggles_witness :
  Library.getArchiveBookInfo Shelf.page_archiving = true /\
  exists more,
    Library.calls
      (Library.handleArchiveBook Shelf.accepting (Some "u1")
         Shelf.page_archiving) =
    Library.mkRequest Library.PUT "/api/library/b1"
      (Library.ArchiveBody false) :: more.
Proof.
  assert (Hne : "b1" <> "") by discriminate.
  destruct (handleArchiveBook_toggles Shelf.accepting (Some "u1")
              Shelf.page_archiving "b1" eq_refl Hne)
    as (_ & Hcall & _).
  split; [reflexivity | exact Hcall].
Defined.

Lemma handleStatusChange_outcome_witness :
  Library.toasts
    (Library.handleStatusChange Shelf.refusing (Some "u1") "b2" "reading"
       Shelf.page) =
    [Library.mkToast "Erreur" (Some "Failed to update book status.")
       (Some "destructive")] /\
  exists shown,
    Library.toasts
      (Library.handleStatusChange Shelf.accepting (Some "u1") "b2" "reading"
         Shelf.page) =
    Library.mkToast "Nouveau badge débloqué !"
      (Some "Vous avez obtenu le badge : Lecteur") None :: shown.
Proof.
  destruct (handleStatusChange_outcome Shelf.refusing (Some "u1") "b2"
              "reading" Shelf.page) as (_ & _ & Hrefused).
  destruct (handleStatusChange_outcome Shelf.accepting (Some "u1") "b2"
              "reading" Shelf.page) as (_ & Haccepted & _).
  split.
  - exact (proj2 (proj2 (Hrefused _ _ eq_refl eq_refl eq_refl))).
  - destruct (Haccepted _ _ eq_refl eq_refl eq_refl) as (shown & Ht & _).
    exists shown. exact Ht.
Defined.

Lemma handlers_keep_filters_and_dialogs_witness :
  Library.modals
    (Library.handleDeleteBook Shelf.accepting (Some "u1") Shelf.page_deleting)
  = Library.openModal Library.delete "b1" Shelf.closed.
Proof.
  refine (proj1 (proj2 (proj2 (handlers_keep_filters_and_dialogs
                                 Shelf.accepting (Some "u1") "b1" "reading"
                                 None None Shelf.page_deleting _ _)))).
  right. left. reflexivity.
Defined.
